(** * overlay.py: geocoding with retry, batch geocoding and the orchestrator

    A shallow embedding of [src/overlay.py].  The program talks to two
    outside parties (the Census download and the Nominatim geocoder), sleeps,
    prints, and lets exceptions escape; all of that is kept explicit:

    - a computation is a function from the trace of events so far to a
      result (a value or a raised exception) and the extended trace;
    - the geocoder is an oracle indexed by the number of lookups already
      made, so an address may time out twice and then resolve;
    - coordinates are binary64 floats, because [if lat and lon] tests their
      truthiness and [0.0] is falsy in Python. *)

From Stdlib Require Import ZArith List String Bool Lia Floats.
From stdpp Require Import base list.
Import ListNotations.
Local Open Scope string_scope.
Local Open Scope list_scope.
Local Open Scope Z_scope.

(** ** Exceptions *)

(** The exception classes the program tells apart.  [geocode_address] names
    [GeocoderTimedOut] and [GeocoderServiceError] in its [except] clause;
    [Exception] stands for an exception of any other class (all of them are
    instances of Python's [Exception], which is what [get_florida_counties]
    and [main] catch). *)
Inductive Exn : Type :=
| GeocoderTimedOut (msg : string)
| GeocoderServiceError (msg : string)
| Exception (msg : string).

(** [except (GeocoderTimedOut, GeocoderServiceError) as e] *)
Definition is_geocoder_error (e : Exn) : bool :=
  match e with
  | GeocoderTimedOut _ | GeocoderServiceError _ => true
  | Exception _ => false
  end.

(** [except Exception as e] *)
Definition is_exception (e : Exn) : bool := true.

(** ** Data *)

(** What [geolocator.geocode] hands back when it finds the address. *)
Record Location : Type := mkLocation {
  loc_latitude : float;
  loc_longitude : float
}.

(** A Python value that is either [None] or a float. *)
Definition PyFloat : Type := option float.

(** Python truthiness of such a value: [None] and zero are falsy. *)
Definition truthy (v : PyFloat) : bool :=
  match v with
  | None => false
  | Some x => negb (PrimFloat.eqb x 0%float)
  end.

(** [{"name": ..., "address": ...}] *)
Record Branch : Type := mkBranch {
  name : string;
  address : string
}.

(** [{"name": ..., "address": ..., "latitude": ..., "longitude": ...}];
    the coordinates are whatever [geocode_address] returned, so their type
    still admits [None]. *)
Record BranchLocation : Type := mkBranchLocation {
  bl_name : string;
  bl_address : string;
  latitude : PyFloat;
  longitude : PyFloat
}.

(** The filtered county table, reduced to its [NAME] column. *)
Definition GeoDataFrame : Type := list string.

(** ** Events and console output *)

Inductive Msg : Type :=
| Text (line : string)
| FailedToGeocode (address : string) (e : Exn)
| GeocodingProgress (i n : nat) (name : string)
| Found (lat lon : PyFloat)
| FailedBranch (address : string)
| Loaded (n : nat)
| ErrorDownloading (e : Exn)
| AlternativeFailed (e : Exn)
| MapCreated (file : string)
| CountCounties (n : nat)
| CountBranches (n : nat)
| OpenHint (file : string)
| TopLevelError (e : Exn).

Inductive Event : Type :=
| Download (url : string)
| Lookup (address : string)
| Sleep (seconds : Z)
| Print (m : Msg)
| CreateMap (counties : GeoDataFrame) (branch_locations : list BranchLocation)
| SaveMap (file : string).

Definition Trace : Type := list Event.

(** ** The monad: trace passing with exceptions *)

Inductive Res (A : Type) : Type :=
| Ret (a : A)
| Raise (e : Exn).
Arguments Ret {A} a.
Arguments Raise {A} e.

Definition M (A : Type) : Type := Trace -> Res A * Trace.

Definition ret {A} (a : A) : M A := fun t => (Ret a, t).

Definition raise {A} (e : Exn) : M A := fun t => (Raise e, t).

Definition bind {A B} (c : M A) (k : A -> M B) : M B :=
  fun t =>
    match c t with
    | (Ret a, t') => k a t'
    | (Raise e, t') => (Raise e, t')
    end.

Notation "x <- c ;; k" := (bind c (fun x => k))
  (at level 100, c at next level, right associativity).
Notation "c ;;; k" := (bind c (fun _ => k))
  (at level 100, right associativity).

(** [try: body  except <classes> as e: handler e] *)
Definition try_except {A} (body : M A) (catches : Exn -> bool)
    (handler : Exn -> M A) : M A :=
  fun t =>
    match body t with
    | (Ret a, t') => (Ret a, t')
    | (Raise e, t') => if catches e then handler e t' else (Raise e, t')
    end.

Definition emit (ev : Event) : M unit := fun t => (Ret tt, t ++ [ev]).

Definition sleep (seconds : Z) : M unit := emit (Sleep seconds).
Definition print (m : Msg) : M unit := emit (Print m).

(** ** The geocoding service *)

(** Number of lookups made so far. *)
Fixpoint calls (t : Trace) : nat :=
  match t with
  | [] => O
  | Lookup _ :: t' => S (calls t')
  | _ :: t' => calls t'
  end.

(** The service answers the [n]-th lookup (counting from 0 over the whole
    run) of an address with a location, with [None] (not found), or by
    raising. *)
Definition Service : Type := nat -> string -> Res (option Location).

(** [geolocator.geocode(address, timeout=10)] *)
Definition geocode (svc : Service) (address : string) : M (option Location) :=
  fun t => (svc (calls t) address, t ++ [Lookup address]).

(** ** geocode_address *)

(** [range(n)] *)
Definition range (n : Z) : list Z := map Z.of_nat (seq 0 (Z.to_nat n)).

(** One pass through the body of the [for attempt in range(max_retries)]
    loop: [Some v] when the body executes [return v], [None] when control
    reaches the next iteration.  [geocode] answers [None] or a location
    object, and a location object is truthy, so [if location:] is the test
    against [None]. *)
Definition attempt_body (svc : Service) (address : string) (max_retries : Z)
    (attempt : Z) : M (option (PyFloat * PyFloat)) :=
  try_except
    (location <- geocode svc address ;;
     match location with
     | Some l => ret (Some (Some (loc_latitude l), Some (loc_longitude l)))
     | None => sleep 1 ;;; ret None
     end)
    is_geocoder_error
    (fun e =>
       if attempt <? max_retries - 1
       then sleep (2 ^ attempt) ;;; ret None
       else print (FailedToGeocode address e) ;;; ret (Some (None, None))).

Fixpoint for_attempts (svc : Service) (address : string) (max_retries : Z)
    (attempts : list Z) : M (PyFloat * PyFloat) :=
  match attempts with
  | [] => ret (None, None)
  | attempt :: rest =>
      r <- attempt_body svc address max_retries attempt ;;
      match r with
      | Some v => ret v
      | None => for_attempts svc address max_retries rest
      end
  end.

Definition geocode_address (svc : Service) (address : string)
    (max_retries : Z) : M (PyFloat * PyFloat) :=
  for_attempts svc address max_retries (range max_retries).

(** ** get_fortiline_branches *)

Definition get_fortiline_branches : list Branch :=
  [ mkBranch "Miami" "14202 SW 142nd Ave, Miami, FL 33186";
    mkBranch "Pompano Beach" "2250 N Andrews Ave, Pompano Beach, FL 33069";
    mkBranch "Riviera Beach" "6759 White Dr, Riviera Beach, FL 33407";
    mkBranch "Fort Pierce" "3904 Selvitz Rd, Fort Pierce, FL 34982";
    mkBranch "Fort Myers" "4810 Laredo Ave, Fort Myers, FL 33905";
    mkBranch "Sarasota" "2074 47th Street, Sarasota, FL 34234";
    mkBranch "Tampa" "1031 S 86th Street, Tampa, FL 33619";
    mkBranch "Dundee" "225 W Frederick Ave, Dundee, FL 33838";
    mkBranch "Kissimmee" "731 Duncan Ave, Kissimmee, FL 34744";
    mkBranch "Apopka" "3636 Fudge Rd, Apopka, FL 32703";
    mkBranch "Sanford" "2291 West Airport Blvd, Sanford, FL 32771";
    mkBranch "Port Orange" "700 Oak Heights Ct, Port Orange, FL 32129";
    mkBranch "Ocala" "3518 SW 13th St, Ocala, FL 34474";
    mkBranch "St Augustine" "3780 Deerpark Blvd, St Augustine, Fl 32033";
    mkBranch "Jacksonville" "6982 Highway Ave, Jacksonville, FL 32254";
    mkBranch "Lake City" "3847 US-441, Lake City, FL 32025";
    mkBranch "Panama City" "1417 Transmitter Rd, Fl 32401" ].

(** ** geocode_branches *)

(** [enumerate(l, start)] *)
Fixpoint enumerate {A} (start : nat) (l : list A) : list (nat * A) :=
  match l with
  | [] => []
  | x :: l' => (start, x) :: enumerate (S start) l'
  end.

(** The body of [for i, branch in enumerate(branches, 1)]; it returns the
    list [branch_locations] as the iteration leaves it.  [geocode_address]
    is called with its default [max_retries=3]. *)
Definition branch_body (svc : Service) (total : nat) (i : nat)
    (branch : Branch) (branch_locations : list BranchLocation)
    : M (list BranchLocation) :=
  print (GeocodingProgress i total (name branch)) ;;;
  r <- geocode_address svc (address branch) 3 ;;
  let '(lat, lon) := r in
  branch_locations' <-
    (if truthy lat && truthy lon
     then print (Found lat lon) ;;;
          ret (branch_locations ++
                 [mkBranchLocation (name branch) (address branch) lat lon])
     else print (FailedBranch (address branch)) ;;;
          ret branch_locations) ;;
  sleep 1 ;;;
  ret branch_locations'.

Fixpoint for_branches (svc : Service) (total : nat)
    (todo : list (nat * Branch)) (branch_locations : list BranchLocation)
    : M (list BranchLocation) :=
  match todo with
  | [] => ret branch_locations
  | (i, branch) :: rest =>
      branch_locations' <- branch_body svc total i branch branch_locations ;;
      for_branches svc total rest branch_locations'
  end.

Definition geocode_branches (svc : Service) (branches : list Branch)
    : M (list BranchLocation) :=
  print (Text "Geocoding Fortiline branch addresses...") ;;;
  for_branches svc (length branches) (enumerate 1 branches) [].

(** ** The outside world of a run *)

(** [primary]: how the download, unpacking and filtering of the Census
    shapefile ends (the [try] block of [get_florida_counties]; the progress
    lines that block prints while it runs are left out of the trace);
    [render] and [save]: whether folium raises while building or writing
    the map. *)
Record Env : Type := mkEnv {
  primary : Res GeoDataFrame;
  service : Service;
  render : Res unit;
  save : Res unit
}.

(** ** get_florida_counties *)

(** The line feed that starts some of the printed lines. *)
Definition nl : string := String (Ascii.ascii_of_nat 10) EmptyString.

Definition counties_url : string :=
  "https://www2.census.gov/geo/tiger/TIGER2023/COUNTY/tl_2023_us_county.zip".

Definition primary_failed : Exn :=
  Exception
    "Primary download method failed. Please check your internet connection.".

Definition get_florida_counties (env : Env) : M GeoDataFrame :=
  print (Text "Downloading Florida county boundaries...") ;;;
  try_except
    (print (Text "  Downloading US counties shapefile (this may take a moment)...") ;;;
     emit (Download counties_url) ;;;
     florida_counties <- (fun t => (primary env, t)) ;;
     print (Loaded (length florida_counties)) ;;;
     ret florida_counties)
    is_exception
    (fun e =>
       print (ErrorDownloading e) ;;;
       print (Text "  Attempting alternative method...") ;;;
       try_except
         (print (Text "  Trying alternative GeoJSON source...") ;;;
          raise primary_failed)
         is_exception
         (fun e2 =>
            print (AlternativeFailed e2) ;;;
            print (Text (nl ++ "  Please ensure you have:")%string) ;;;
            print (Text "    1. Internet access") ;;;
            print (Text "    2. Sufficient disk space (~50MB)") ;;;
            print (Text "    3. All required packages installed") ;;;
            raise e2)).

(** ** create_map and main *)

Definition create_map (env : Env) (florida_counties : GeoDataFrame)
    (branch_locations : list BranchLocation) : M unit :=
  print (Text "Creating interactive map...") ;;;
  emit (CreateMap florida_counties branch_locations) ;;;
  (fun t => (render env, t)).

Definition save_map (env : Env) (output_file : string) : M unit :=
  emit (SaveMap output_file) ;;; (fun t => (save env, t)).

(** [not branch_locations] *)
Definition is_empty {A} (l : list A) : bool :=
  match l with [] => true | _ => false end.

(** ["=" * 60] *)
Definition banner : string :=
  "============================================================".

Definition main (env : Env) : M unit :=
  print (Text banner) ;;;
  print (Text "Fortiline Waterworks - Florida Interactive Map Generator") ;;;
  print (Text banner) ;;;
  try_except
    (florida_counties <- get_florida_counties env ;;
     let branches := get_fortiline_branches in
     branch_locations <- geocode_branches (service env) branches ;;
     if is_empty branch_locations
     then print (Text "ERROR: No branches were successfully geocoded!") ;;;
          ret tt
     else
       create_map env florida_counties branch_locations ;;;
       let output_file := "fortiline_florida_map.html" in
       save_map env output_file ;;;
       print (Text (nl ++ banner)%string) ;;;
       print (MapCreated output_file) ;;;
       print (CountCounties (length florida_counties)) ;;;
       print (CountBranches (length branch_locations)) ;;;
       print (OpenHint output_file) ;;;
       print (Text banner) ;;;
       ret tt)
    is_exception
    (fun e =>
       print (TopLevelError e) ;;;
       print (Text (nl ++ "Troubleshooting tips:")%string) ;;;
       print (Text "1. Ensure you have internet access") ;;;
       print (Text "2. Check that all required packages are installed:") ;;;
       print (Text "   pip install requests pandas geopandas folium geopy") ;;;
       print (Text "3. If geocoding fails, you may need to wait and try again") ;;;
       raise e).

(** ** Observations on traces *)

(** The delays slept, in order. *)
Fixpoint sleeps (t : Trace) : list Z :=
  match t with
  | [] => []
  | Sleep d :: t' => d :: sleeps t'
  | _ :: t' => sleeps t'
  end.

(** The addresses looked up, in order. *)
Fixpoint lookups (t : Trace) : list string :=
  match t with
  | [] => []
  | Lookup a :: t' => a :: lookups t'
  | _ :: t' => lookups t'
  end.

(** Whether the renderer was invoked. *)
Fixpoint rendered (t : Trace) : bool :=
  match t with
  | [] => false
  | CreateMap _ _ :: _ => true
  | _ :: t' => rendered t'
  end.

Definition sum (l : list Z) : Z := fold_right Z.add 0 l.

(** ** Vocabulary of the statements *)

(** How one iteration ends, judged from the service's answer: [true] when
    control reaches the next iteration (a "not found" answer, or a geocoder
    error on an attempt that is not the last). *)
Definition continues (max_retries attempt : Z) (r : Res (option Location))
    : bool :=
  match r with
  | Ret (Some _) => false
  | Ret None => true
  | Raise e => is_geocoder_error e && (attempt <? max_retries - 1)
  end.

(** The service raises one of the two errors named in the [except] clause. *)
Definition geocoder_error (r : Res (option Location)) : bool :=
  match r with
  | Raise e => is_geocoder_error e
  | Ret _ => false
  end.

(** The events of a run of iterations that all continue, the first of them
    being lookup number [c]. *)
Fixpoint retry_events (svc : Service) (a : string) (c : nat)
    (attempts : list Z) : list Event :=
  match attempts with
  | [] => []
  | i :: l =>
      Lookup a
        :: Sleep (match svc c a with Ret None => 1 | _ => 2 ^ i end)
        :: retry_events svc a (S c) l
  end.

(** [1 + 2 + 4 + ... + 2^(k-1)] *)
Fixpoint backoff_total (k : nat) : Z :=
  match k with
  | O => 0
  | S k' => backoff_total k' + 2 ^ Z.of_nat k'
  end.

(** The entry the batch loop appends for a branch. *)
Definition located_entry (b : Branch) (lat lon : PyFloat) : BranchLocation :=
  mkBranchLocation (name b) (address b) lat lon.

(** The branch an entry was made from. *)
Definition branch_of (bl : BranchLocation) : Branch :=
  mkBranch (bl_name bl) (bl_address bl).

(** The service raises nothing but the errors the [except] clause names. *)
Definition only_geocoder_errors (svc : Service) : Prop :=
  forall (n : nat) (a : string) (e : Exn),
    svc n a = Raise e -> is_geocoder_error e = true.

(** What is printed before the first stage starts. *)
Definition main_header : list Event :=
  [ Print (Text banner);
    Print (Text "Fortiline Waterworks - Florida Interactive Map Generator");
    Print (Text banner) ].

(** What the top-level handler prints before it re-raises [e]. *)
Definition troubleshooting (e : Exn) : list Event :=
  [ Print (TopLevelError e);
    Print (Text (nl ++ "Troubleshooting tips:")%string);
    Print (Text "1. Ensure you have internet access");
    Print (Text "2. Check that all required packages are installed:");
    Print (Text "   pip install requests pandas geopandas folium geopy");
    Print (Text "3. If geocoding fails, you may need to wait and try again") ].

(** The events of a failed boundary fetch: one download, and no other. *)
Definition failed_fetch (e : Exn) : list Event :=
  [ Print (Text "Downloading Florida county boundaries...");
    Print (Text "  Downloading US counties shapefile (this may take a moment)...");
    Download counties_url;
    Print (ErrorDownloading e);
    Print (Text "  Attempting alternative method...");
    Print (Text "  Trying alternative GeoJSON source...");
    Print (AlternativeFailed primary_failed);
    Print (Text (nl ++ "  Please ensure you have:")%string);
    Print (Text "    1. Internet access");
    Print (Text "    2. Sufficient disk space (~50MB)");
    Print (Text "    3. All required packages installed") ].

(** The events the retry loop can add to the trace, given the attempts it
    still has: iterations that continue (a lookup and a sleep each),
    ended by the exhaustion of the attempts, by a lookup after which the
    loop is left at once (a location, or an error that escapes), or by a
    lookup whose error is reported. *)
Inductive attempts_trace (a : string) (R : Z)
    : list Z -> list Event -> Prop :=
| at_exhausted : attempts_trace a R [] []
| at_continue i l d evs :
    d = 1 \/ (d = 2 ^ i /\ i < R - 1) ->
    attempts_trace a R l evs ->
    attempts_trace a R (i :: l) (Lookup a :: Sleep d :: evs)
| at_left i l : attempts_trace a R (i :: l) [Lookup a]
| at_gave_up i l e :
    attempts_trace a R (i :: l) [Lookup a; Print (FailedToGeocode a e)].

(** The most the retry loop can sleep over the given attempts. *)
Definition max_delay (R : Z) (attempts : list Z) : Z :=
  sum (map (fun i => if i <? R - 1 then 2 ^ i else 1) attempts).

(** The events the batch loop can add to the trace, given the branches
    still to do; the flag tells whether the loop returns or is left by an
    error. *)
Inductive batch_trace (total : nat)
    : bool -> list (nat * Branch) -> list Event -> Prop :=
| bt_done : batch_trace total true [] []
| bt_branch returned i b rest evs m more :
    attempts_trace (address b) 3 (range 3) evs ->
    (exists lat lon, m = Found lat lon) \/ m = FailedBranch (address b) ->
    batch_trace total returned rest more ->
    batch_trace total returned ((i, b) :: rest)
      (Print (GeocodingProgress i total (name b))
         :: evs ++ Print m :: Sleep 1 :: more)
| bt_raised i b rest evs :
    attempts_trace (address b) 3 (range 3) evs ->
    batch_trace total false ((i, b) :: rest)
      (Print (GeocodingProgress i total (name b)) :: evs).

(** Whether a result is a return. *)
Definition is_ret {A} (r : Res A) : bool :=
  match r with Ret _ => true | Raise _ => false end.

(** Pacing of the lookups: no lookup is made unless at least 1 time unit
    has been slept since the lookup before it.  [rested] tells whether that
    much has been slept when the trace starts. *)
Fixpoint paced (rested : bool) (t : Trace) : bool :=
  match t with
  | [] => true
  | Lookup _ :: t' => rested && paced false t'
  | Sleep d :: t' => paced (rested || (1 <=? d)) t'
  | _ :: t' => paced rested t'
  end.

Fixpoint rested_after (rested : bool) (t : Trace) : bool :=
  match t with
  | [] => rested
  | Lookup _ :: t' => rested_after false t'
  | Sleep d :: t' => rested_after (rested || (1 <=? d)) t'
  | _ :: t' => rested_after rested t'
  end.

(** Events of the stages before rendering: everything but the rendering,
    the saving and the lines printed after them or by the top-level
    handler. *)
Definition early (ev : Event) : bool :=
  match ev with
  | Download _ | Lookup _ | Sleep _ => true
  | Print (Text _) | Print (FailedToGeocode _ _)
  | Print (GeocodingProgress _ _ _) | Print (Found _ _)
  | Print (FailedBranch _) | Print (Loaded _) | Print (ErrorDownloading _)
  | Print (AlternativeFailed _) => true
  | _ => false
  end.

(** For a service whose answer depends on the address alone: the entry a
    branch gets, if it gets one. *)
Definition expected_entry (f : string -> Res (option Location)) (b : Branch)
    : option BranchLocation :=
  match f (address b) with
  | Ret (Some l) =>
      if truthy (Some (loc_latitude l)) && truthy (Some (loc_longitude l))
      then Some (located_entry b (Some (loc_latitude l))
                   (Some (loc_longitude l)))
      else None
  | _ => None
  end.

Fixpoint expected_locations (f : string -> Res (option Location))
    (branches : list Branch) : list BranchLocation :=
  match branches with
  | [] => []
  | b :: rest =>
      match expected_entry f b with
      | Some bl => bl :: expected_locations f rest
      | None => expected_locations f rest
      end
  end.

(** The events of a boundary fetch that succeeds. *)
Definition fetched (counties : GeoDataFrame) : list Event :=
  [ Print (Text "Downloading Florida county boundaries...");
    Print (Text "  Downloading US counties shapefile (this may take a moment)...");
    Download counties_url;
    Print (Loaded (length counties)) ].

(** ** Services, branches and environments for the examples *)

(** Every lookup times out. *)
Definition always_times_out : Service :=
  fun _ _ => Raise (GeocoderTimedOut "Service timed out").

(** Every lookup is answered "not found". *)
Definition never_finds : Service := fun _ _ => Ret None.

(** The boundaries arrive, no address is found. *)
Definition nothing_found_env : Env :=
  mkEnv (Ret ["Miami-Dade"; "Broward"]) never_finds (Ret tt) (Ret tt).

(** Two timeouts, then Miami. *)
Definition times_out_twice : Service :=
  fun n _ =>
    if (n <? 2)%nat then Raise (GeocoderTimedOut "Service timed out")
    else Ret (Some (mkLocation 25.5%float (-80.5)%float)).

(** Miami resolves, everything else is not found. *)
Definition only_miami : Service :=
  fun _ a =>
    if String.eqb a "14202 SW 142nd Ave, Miami, FL 33186"
    then Ret (Some (mkLocation 25.5%float (-80.5)%float))
    else Ret None.

Definition two_branches : list Branch :=
  [ mkBranch "Miami" "14202 SW 142nd Ave, Miami, FL 33186";
    mkBranch "Ocala" "3518 SW 13th St, Ocala, FL 34474" ].

Definition miami_found : BranchLocation :=
  mkBranchLocation "Miami" "14202 SW 142nd Ave, Miami, FL 33186"
    (Some 25.5%float) (Some (-80.5)%float).

(** Every address resolves to a point on the equator. *)
Definition on_the_equator : Service :=
  fun _ _ => Ret (Some (mkLocation 0%float (-80.5)%float)).

Definition quito : Branch := mkBranch "Quito" "Av. Amazonas, Quito".

(** Miami resolves; the lookup of any other address raises an error of a
    class the [except] clause does not name. *)
Definition breaks_after_miami : Service :=
  fun _ a =>
    if String.eqb a "14202 SW 142nd Ave, Miami, FL 33186"
    then Ret (Some (mkLocation 25.5%float (-80.5)%float))
    else Raise (Exception "unexpected failure").

Definition ocala : Branch := mkBranch "Ocala" "3518 SW 13th St, Ocala, FL 34474".

(** Everything resolves except one address, which always times out. *)
Definition one_dead_address : Service :=
  fun _ a =>
    if String.eqb a "1 Nowhere Rd, Atlantis, FL 00000"
    then Raise (GeocoderTimedOut "Service timed out")
    else Ret (Some (mkLocation 25.5%float (-80.5)%float)).

Definition atlantis : Branch :=
  mkBranch "Atlantis" "1 Nowhere Rd, Atlantis, FL 00000".

Definition three_branches : list Branch :=
  [ mkBranch "Miami" "14202 SW 142nd Ave, Miami, FL 33186";
    atlantis;
    ocala ].

(** Every address resolves to the same point. *)
Definition always_finds : Service :=
  fun _ _ => Ret (Some (mkLocation 25.5%float (-80.5)%float)).

(** Everything works. *)
Definition working_env : Env :=
  mkEnv (Ret ["Miami-Dade"; "Broward"]) always_finds (Ret tt) (Ret tt).

(** The download fails. *)
Definition offline_env : Env :=
  mkEnv (Raise (Exception "Connection refused")) always_finds (Ret tt) (Ret tt).

(** The map is drawn, the disk is full. *)
Definition disk_full_env : Env :=
  mkEnv (Ret ["Miami-Dade"; "Broward"]) always_finds (Ret tt)
    (Raise (Exception "No space left on device")).

(** * Properties *)

(** ** The monad and traces *)

Lemma calls_app t t' : calls (t ++ t') = (calls t + calls t')%nat.
Proof.
  induction t as [|ev t IH]; simpl; [reflexivity|].
  destruct ev; simpl; rewrite IH; reflexivity.
Qed.

Lemma sleeps_app t t' : sleeps (t ++ t') = sleeps t ++ sleeps t'.
Proof.
  induction t as [|ev t IH]; simpl; [reflexivity|].
  destruct ev; simpl; rewrite IH; reflexivity.
Qed.

Lemma lookups_app t t' : lookups (t ++ t') = lookups t ++ lookups t'.
Proof.
  induction t as [|ev t IH]; simpl; [reflexivity|].
  destruct ev; simpl; rewrite IH; reflexivity.
Qed.

Lemma rendered_app t t' : rendered (t ++ t') = rendered t || rendered t'.
Proof.
  induction t as [|ev t IH]; simpl; [reflexivity|].
  destruct ev; simpl; auto.
Qed.

Lemma range_S (n : nat) : range (Z.of_nat (S n)) = range (Z.of_nat n) ++ [Z.of_nat n].
Proof.
  unfold range. rewrite !Nat2Z.id, seq_S, map_app. reflexivity.
Qed.

Lemma range_split (k n : nat) :
  range (Z.of_nat (k + n)) =
  range (Z.of_nat k) ++ map Z.of_nat (seq k n).
Proof.
  unfold range. rewrite !Nat2Z.id, seq_app, map_app. reflexivity.
Qed.

Lemma range_lookup (n : Z) (j : nat) (i : Z) :
  range n !! j = Some i -> i = Z.of_nat j /\ i < n.
Proof.
  unfold range. rewrite list_lookup_fmap.
  destruct (seq 0 (Z.to_nat n) !! j) as [x|] eqn:E; simpl; [|discriminate].
  apply lookup_seq in E as [-> Hlt]. intros [= <-]. simpl. lia.
Qed.

Lemma sum_app l l' : sum (l ++ l') = sum l + sum l'.
Proof. induction l as [|x l IH]; simpl; [reflexivity|rewrite IH; lia]. Qed.

Lemma sum_backoff (k : nat) :
  sum (map (fun i => 2 ^ i) (range (Z.of_nat k))) = backoff_total k.
Proof.
  induction k as [|k IH]; [reflexivity|].
  rewrite range_S, map_app, sum_app, IH. simpl. lia.
Qed.

Lemma backoff_total_closed (k : nat) : backoff_total k = 2 ^ Z.of_nat k - 1.
Proof.
  induction k as [|k IH]; [reflexivity|].
  cbn [backoff_total]. rewrite IH, Nat2Z.inj_succ, Z.pow_succ_r by lia. lia.
Qed.

Lemma length_range (n : nat) : length (range (Z.of_nat n)) = n.
Proof. unfold range. rewrite length_map, length_seq. apply Nat2Z.id. Qed.

(** ** The retry loop of geocode_address *)

Section RetryLoop.

Variable svc : Service.
Variable a : string.

(** The body of the loop, case by case on the service's answer. *)
Lemma attempt_body_eq R i t :
  attempt_body svc a R i t =
  match svc (calls t) a with
  | Ret (Some l) =>
      (Ret (Some (Some (loc_latitude l), Some (loc_longitude l))),
       t ++ [Lookup a])
  | Ret None => (Ret None, t ++ [Lookup a; Sleep 1])
  | Raise e =>
      if is_geocoder_error e
      then if i <? R - 1
           then (Ret None, t ++ [Lookup a; Sleep (2 ^ i)])
           else (Ret (Some (None, None)),
                 t ++ [Lookup a; Print (FailedToGeocode a e)])
      else (Raise e, t ++ [Lookup a])
  end.
Proof.
  unfold attempt_body, try_except, bind, geocode, sleep, print, emit, ret.
  destruct (svc (calls t) a) as [[l|]|e]; simpl.
  - reflexivity.
  - rewrite <- app_assoc. reflexivity.
  - destruct (is_geocoder_error e); [|reflexivity].
    destruct (i <? R - 1); rewrite <- app_assoc; reflexivity.
Qed.

(** Enter the first iteration of a loop that has one. *)
Ltac enter_iteration :=
  cbn [for_attempts map seq]; unfold bind; rewrite attempt_body_eq.

(** A run of iterations that all continue leaves the loop where it would
    have been started on the remaining attempts, with two events per
    iteration added to the trace. *)
Lemma for_attempts_continue R l :
  forall c rest t,
    calls t = c ->
    (forall (j : nat) (i : Z),
        l !! j = Some i -> continues R i (svc (c + j)%nat a) = true) ->
    for_attempts svc a R (l ++ rest) t =
    for_attempts svc a R rest (t ++ retry_events svc a c l).
Proof.
  induction l as [|i l IH]; intros c rest t Hc H; simpl.
  - rewrite app_nil_r. reflexivity.
  - unfold bind at 1. rewrite attempt_body_eq, Hc.
    pose proof (H O i eq_refl) as H0. rewrite Nat.add_0_r in H0.
    assert (Hrest : forall (j : nat) (i' : Z),
               l !! j = Some i' ->
               continues R i' (svc (S c + j)%nat a) = true).
    { intros j i' Hj. specialize (H (S j) i' Hj).
      rewrite Nat.add_succ_r in H. exact H. }
    destruct (svc c a) as [[loc|]|e]; simpl in H0; [discriminate| |].
    + rewrite (IH (S c) rest); [|rewrite calls_app, Hc; simpl; lia|exact Hrest].
      rewrite <- app_assoc. reflexivity.
    + apply andb_true_iff in H0 as [He Hi]. rewrite He, Hi.
      rewrite (IH (S c) rest); [|rewrite calls_app, Hc; simpl; lia|exact Hrest].
      rewrite <- app_assoc. reflexivity.
Qed.

Lemma retry_events_not_found l :
  forall c,
    (forall j : nat, (j < length l)%nat -> svc (c + j)%nat a = Ret None) ->
    retry_events svc a c l = concat (repeat [Lookup a; Sleep 1] (length l)).
Proof.
  induction l as [|i l IH]; intros c H; simpl; [reflexivity|].
  rewrite <- (Nat.add_0_r c) at 1. rewrite (H O) by (simpl; lia).
  rewrite (IH (S c)); [reflexivity|].
  intros j Hj. replace (S c + j)%nat with (c + S j)%nat by lia.
  apply H. simpl. lia.
Qed.

Lemma retry_events_backoff l :
  forall c,
    (forall j : nat, (j < length l)%nat ->
                     geocoder_error (svc (c + j)%nat a) = true) ->
    retry_events svc a c l =
    flat_map (fun i => [Lookup a; Sleep (2 ^ i)]) l.
Proof.
  induction l as [|i l IH]; intros c H; simpl; [reflexivity|].
  pose proof (H O ltac:(simpl; lia)) as H0. rewrite Nat.add_0_r in H0.
  rewrite (IH (S c)).
  - destruct (svc c a) as [[loc|]|e]; simpl in H0; try discriminate.
    reflexivity.
  - intros j Hj. replace (S c + j)%nat with (c + S j)%nat by lia.
    apply H. simpl. lia.
Qed.

Lemma calls_retry_events l :
  forall c, calls (retry_events svc a c l) = length l.
Proof.
  induction l as [|i l IH]; intros c; simpl; [|rewrite IH]; reflexivity.
Qed.

Lemma calls_backoff l :
  calls (flat_map (fun i => [Lookup a; Sleep (2 ^ i)]) l) = length l.
Proof. induction l as [|i l IH]; simpl; congruence. Qed.

Lemma calls_pauses (k : nat) :
  calls (concat (repeat [Lookup a; Sleep 1] k)) = k.
Proof. induction k as [|k IH]; simpl; congruence. Qed.

Lemma sleeps_backoff l :
  sleeps (flat_map (fun i => [Lookup a; Sleep (2 ^ i)]) l) =
  map (fun i => 2 ^ i) l.
Proof. induction l as [|i l IH]; simpl; [|rewrite IH]; reflexivity. Qed.

Lemma lookups_backoff l :
  lookups (flat_map (fun i => [Lookup a; Sleep (2 ^ i)]) l) =
  repeat a (length l).
Proof. induction l as [|i l IH]; simpl; [|rewrite IH]; reflexivity. Qed.

(** After [k] iterations that continue, with more attempts left, the loop
    stands at attempt [k] with the lookup counter advanced by [k]. *)
Lemma geocode_address_prefix (k n : nat) t :
  (forall j : nat,
      (j < k)%nat ->
      continues (Z.of_nat (k + n)) (Z.of_nat j) (svc (calls t + j)%nat a)
      = true) ->
  geocode_address svc a (Z.of_nat (k + n)) t =
  for_attempts svc a (Z.of_nat (k + n)) (map Z.of_nat (seq k n))
    (t ++ retry_events svc a (calls t) (range (Z.of_nat k))).
Proof.
  intros H. unfold geocode_address. rewrite range_split.
  apply for_attempts_continue; [reflexivity|].
  intros j i Hj. apply range_lookup in Hj as [-> Hlt]. apply H. lia.
Qed.

(** "Not found" [k] times and then a location: the location is returned. *)
Lemma geocode_address_not_found_then_located R (k : nat) l t :
  Z.of_nat k < R ->
  (forall j : nat, (j < k)%nat -> svc (calls t + j)%nat a = Ret None) ->
  svc (calls t + k)%nat a = Ret (Some l) ->
  geocode_address svc a R t =
  (Ret (Some (loc_latitude l), Some (loc_longitude l)),
   t ++ concat (repeat [Lookup a; Sleep 1] k) ++ [Lookup a]).
Proof.
  intros Hk Hnf Hl.
  replace R with (Z.of_nat (k + S (Z.to_nat R - k - 1))) by lia.
  rewrite geocode_address_prefix.
  - rewrite retry_events_not_found; rewrite length_range; [|exact Hnf].
    enter_iteration. rewrite calls_app, calls_pauses, Hl.
    rewrite <- app_assoc. reflexivity.
  - intros j Hj. rewrite Hnf by exact Hj. reflexivity.
Qed.

(** A found address is returned at once. *)
Lemma geocode_address_first_try R l t :
  0 < R ->
  svc (calls t) a = Ret (Some l) ->
  geocode_address svc a R t =
  (Ret (Some (loc_latitude l), Some (loc_longitude l)), t ++ [Lookup a]).
Proof.
  intros HR Hl.
  rewrite (geocode_address_not_found_then_located R 0 l t).
  - reflexivity.
  - lia.
  - intros j Hj. lia.
  - rewrite Nat.add_0_r. exact Hl.
Qed.

(** Geocoder errors on all of [n + 1] attempts: [n] backoffs, then the
    last error is reported and failure returned. *)
Lemma geocode_address_all_errors (n : nat) t :
  (forall j : nat,
      (j < S n)%nat -> geocoder_error (svc (calls t + j)%nat a) = true) ->
  exists e,
    svc (calls t + n)%nat a = Raise e /\
    geocode_address svc a (Z.of_nat (S n)) t =
    (Ret (None, None),
     t ++ flat_map (fun i => [Lookup a; Sleep (2 ^ i)]) (range (Z.of_nat n))
       ++ [Lookup a; Print (FailedToGeocode a e)]).
Proof.
  intros H.
  pose proof (H n ltac:(lia)) as Hlast.
  destruct (svc (calls t + n)%nat a) as [r|e] eqn:E; [discriminate|].
  simpl in Hlast. exists e. split; [reflexivity|].
  replace (S n) with (n + 1)%nat by lia.
  rewrite geocode_address_prefix.
  - rewrite retry_events_backoff;
      [|rewrite length_range; intros j Hj; apply H; lia].
    enter_iteration. rewrite calls_app, calls_backoff, length_range, E, Hlast.
    replace (Z.of_nat n <? Z.of_nat (n + 1) - 1) with false
      by (symmetry; apply Z.ltb_ge; lia).
    cbn [fst snd]. rewrite <- app_assoc. reflexivity.
  - intros j Hj. specialize (H j ltac:(lia)).
    destruct (svc (calls t + j)%nat a) as [r|e']; [discriminate|].
    simpl in *. rewrite H. apply Z.ltb_lt. lia.
Qed.

(** The loop returns, whatever it returns, when the service raises only
    errors the [except] clause names. *)
Lemma for_attempts_returns R :
  only_geocoder_errors svc ->
  forall l t, exists r t', for_attempts svc a R l t = (Ret r, t').
Proof.
  intros Hsvc l.
  induction l as [|i l IH]; intros t; simpl.
  - unfold ret. eauto.
  - unfold bind. rewrite attempt_body_eq.
    destruct (svc (calls t) a) as [[loc|]|e] eqn:E.
    + unfold ret. eauto.
    + apply IH.
    + rewrite (Hsvc _ _ _ E).
      destruct (i <? R - 1); [apply IH|unfold ret; eauto].
Qed.

(** C4: when the lookup raises a geocoder error (the errors the [except]
    clause names, which are the ones retried) on each of the [R] attempts,
    [geocode_address] returns failure after exactly [R] lookups of the
    address, no more and no fewer. *)
Theorem geocode_address_exhausts_retries R t :
  0 <= R ->
  (forall j : nat,
      (j < Z.to_nat R)%nat ->
      geocoder_error (svc (calls t + j)%nat a) = true) ->
  exists evs,
    geocode_address svc a R t = (Ret (None, None), t ++ evs) /\
    lookups evs = repeat a (Z.to_nat R) /\
    Z.of_nat (calls evs) = R.
Proof.
  intros HR H. destruct (Z.to_nat R) as [|n] eqn:En.
  - exists []. replace R with 0 by lia.
    unfold geocode_address. simpl. unfold ret. rewrite app_nil_r. auto.
  - destruct (geocode_address_all_errors n t H) as (e & _ & Hrun).
    replace (Z.of_nat (S n)) with R in Hrun by lia.
    eexists. split; [exact Hrun|].
    rewrite lookups_app, calls_app, lookups_backoff, calls_backoff,
      length_range.
    simpl. split; [|lia].
    clear. induction n as [|n IH]; simpl; congruence.
Qed.

(** C6: when the lookup raises a geocoder error exactly [k] times, [k < R],
    and then finds the address, [geocode_address] returns the coordinates
    found, and the delays it slept are [1, 2, 4, ..., 2^(k-1)], which add up
    to [1 + 2 + 4 + ... + 2^(k-1)]. *)
Theorem geocode_address_backoff_then_success R (k : nat) l t :
  Z.of_nat k < R ->
  (forall j : nat,
      (j < k)%nat -> geocoder_error (svc (calls t + j)%nat a) = true) ->
  svc (calls t + k)%nat a = Ret (Some l) ->
  let evs :=
    flat_map (fun i => [Lookup a; Sleep (2 ^ i)]) (range (Z.of_nat k))
      ++ [Lookup a] in
  geocode_address svc a R t =
    (Ret (Some (loc_latitude l), Some (loc_longitude l)), t ++ evs) /\
  sleeps evs = map (fun i => 2 ^ i) (range (Z.of_nat k)) /\
  sum (sleeps evs) = backoff_total k.
Proof.
  intros Hk Herr Hl evs. subst evs. split; [|split].
  - replace R with (Z.of_nat (k + S (Z.to_nat R - k - 1))) by lia.
    rewrite geocode_address_prefix.
    + rewrite retry_events_backoff; [|rewrite length_range; exact Herr].
      enter_iteration. rewrite calls_app, calls_backoff, length_range, Hl.
      rewrite <- app_assoc. reflexivity.
    + intros j Hj. specialize (Herr j Hj).
      destruct (svc (calls t + j)%nat a) as [r|e]; [discriminate|].
      simpl in *. rewrite Herr. apply Z.ltb_lt. lia.
  - rewrite sleeps_app, sleeps_backoff. simpl. apply app_nil_r.
  - rewrite sleeps_app, sleeps_backoff, sum_app, sum_backoff. simpl. lia.
Qed.

(** C7: a "not found" answer makes [geocode_address] sleep 1 and go on to
    the next iteration of the same loop; an address that is not found on
    every attempt is looked up [R] times, each lookup followed by a sleep
    of 1, before failure is returned. *)
Theorem geocode_address_not_found_uses_budget R t :
  (forall j : nat,
      (j < Z.to_nat R)%nat -> svc (calls t + j)%nat a = Ret None) ->
  geocode_address svc a R t =
  (Ret (None, None),
   t ++ concat (repeat [Lookup a; Sleep 1] (Z.to_nat R))).
Proof.
  intros H. unfold geocode_address.
  rewrite <- (app_nil_r (range R)).
  rewrite (for_attempts_continue R (range R) (calls t) [] t eq_refl).
  - rewrite retry_events_not_found.
    + unfold range. rewrite length_map, length_seq. reflexivity.
    + unfold range. rewrite length_map, length_seq. exact H.
  - intros j i Hj. apply range_lookup in Hj as [-> Hlt].
    rewrite H by lia. reflexivity.
Qed.

End RetryLoop.

Lemma geocode_address_exhausts_retries_witness :
  exists evs,
    geocode_address always_times_out "nowhere" 3 [] = (Ret (None, None), [] ++ evs) /\
    lookups evs = repeat "nowhere" (Z.to_nat 3) /\
    Z.of_nat (calls evs) = 3.
Proof.
  apply (geocode_address_exhausts_retries always_times_out "nowhere" 3 []).
  - lia.
  - intros j _. reflexivity.
Defined.

Lemma geocode_address_backoff_then_success_witness :
  let evs :=
    flat_map (fun i => [Lookup "Miami"; Sleep (2 ^ i)]) (range (Z.of_nat 2))
      ++ [Lookup "Miami"] in
  geocode_address times_out_twice "Miami" 3 [] =
    (Ret (Some 25.5%float, Some (-80.5)%float), [] ++ evs) /\
  sleeps evs = map (fun i => 2 ^ i) (range (Z.of_nat 2)) /\
  sum (sleeps evs) = backoff_total 2.
Proof.
  apply (geocode_address_backoff_then_success times_out_twice "Miami" 3 2
           (mkLocation 25.5%float (-80.5)%float) []).
  - lia.
  - intros [|[|j]] Hj; [reflexivity|reflexivity|lia].
  - reflexivity.
Defined.

Lemma geocode_address_not_found_uses_budget_witness :
  geocode_address never_finds "nowhere" 3 [] =
  (Ret (None, None),
   [] ++ concat (repeat [Lookup "nowhere"; Sleep 1] (Z.to_nat 3))).
Proof.
  apply (geocode_address_not_found_uses_budget never_finds "nowhere" 3 []).
  intros j _. reflexivity.
Defined.

(** ** One iteration of the batch loop *)

(** The body of the batch loop, case by case on what [geocode_address]
    hands back. *)
Lemma branch_body_eq svc total i b acc t :
  branch_body svc total i b acc t =
  match geocode_address svc (address b) 3
          (t ++ [Print (GeocodingProgress i total (name b))]) with
  | (Ret (lat, lon), t2) =>
      if truthy lat && truthy lon
      then (Ret (acc ++ [located_entry b lat lon]),
            t2 ++ [Print (Found lat lon); Sleep 1])
      else (Ret acc, t2 ++ [Print (FailedBranch (address b)); Sleep 1])
  | (Raise e, t2) => (Raise e, t2)
  end.
Proof.
  unfold branch_body, bind, print, sleep, emit, ret.
  destruct (geocode_address svc (address b) 3 _) as [[[lat lon]|e] t2];
    [|reflexivity].
  destruct (truthy lat && truthy lon); rewrite <- app_assoc; reflexivity.
Qed.

(** An iteration that completes either leaves the list alone or appends
    the entry of its branch, with coordinates that are both truthy. *)
Lemma branch_body_cases svc total i b acc t acc' t' :
  branch_body svc total i b acc t = (Ret acc', t') ->
  acc' = acc \/
  exists lat lon t2,
    geocode_address svc (address b) 3
      (t ++ [Print (GeocodingProgress i total (name b))])
    = (Ret (lat, lon), t2) /\
    truthy lat = true /\ truthy lon = true /\
    acc' = acc ++ [located_entry b lat lon].
Proof.
  rewrite branch_body_eq.
  destruct (geocode_address svc (address b) 3 _) as [[[lat lon]|e] t2] eqn:E;
    [|discriminate].
  destruct (truthy lat && truthy lon) eqn:Ht; intros [= <- <-].
  - right. apply andb_true_iff in Ht as [Hlat Hlon].
    exists lat, lon, t2. auto.
  - left. reflexivity.
Qed.

(** The invariant rule of the batch loop: a property of the work left and
    the list built so far that every completed iteration maintains holds,
    when the loop returns, of the empty work list and the list returned. *)
Lemma for_branches_invariant svc total
    (I : list (nat * Branch) -> list BranchLocation -> Prop) :
  (forall i b rest acc t acc' t',
      I ((i, b) :: rest) acc ->
      branch_body svc total i b acc t = (Ret acc', t') ->
      I rest acc') ->
  forall todo acc t out t',
    I todo acc ->
    for_branches svc total todo acc t = (Ret out, t') ->
    I [] out.
Proof.
  intros Hstep todo.
  induction todo as [|[i b] rest IH]; intros acc t out t' HI Hrun.
  - simpl in Hrun. unfold ret in Hrun. congruence.
  - simpl in Hrun. unfold bind in Hrun.
    destruct (branch_body svc total i b acc t) as [[acc'|e] t1] eqn:E;
      [|discriminate].
    eapply IH; [|exact Hrun]. eapply Hstep; eauto.
Qed.

Lemma enumerate_snd {A} (l : list A) :
  forall start, map snd (enumerate start l) = l.
Proof.
  induction l as [|x l IH]; intros start; simpl; [|rewrite IH]; reflexivity.
Qed.

(** ** geocode_branches *)

(** C5: every entry of the list [geocode_branches] returns has a latitude
    and a longitude that are not [None]; a branch whose geocoding fails
    gets no entry. *)
Theorem geocode_branches_coordinates_present svc branches t out t' :
  geocode_branches svc branches t = (Ret out, t') ->
  Forall (fun bl => latitude bl <> None /\ longitude bl <> None) out.
Proof.
  unfold geocode_branches, bind, print, emit. intros Hrun.
  apply (for_branches_invariant svc (length branches)
           (fun _ acc =>
              Forall (fun bl => latitude bl <> None /\ longitude bl <> None)
                     acc))
    with (3 := Hrun); [|constructor].
  intros i b rest acc t0 acc' t0' Hacc Hbody.
  apply branch_body_cases in Hbody
    as [->|(lat & lon & t2 & _ & Hlat & Hlon & ->)]; [exact Hacc|].
  apply Forall_app. split; [exact Hacc|].
  constructor; [|constructor]. simpl.
  destruct lat, lon; try discriminate. split; discriminate.
Qed.

Lemma geocode_branches_coordinates_present_witness :
  Forall (fun bl => latitude bl <> None /\ longitude bl <> None)
    [miami_found].
Proof.
  apply (geocode_branches_coordinates_present only_miami two_branches []
           [miami_found] (snd (geocode_branches only_miami two_branches []))).
  vm_compute. reflexivity.
Defined.

(** C10: the names and addresses of the entries [geocode_branches]
    returns, taken in order, are a sublist of the input list: every entry
    carries the name and address of its branch unchanged, and the entries
    come in the order of the input. *)
Theorem geocode_branches_preserves_order svc branches t out t' :
  geocode_branches svc branches t = (Ret out, t') ->
  sublist (map branch_of out) branches.
Proof.
  unfold geocode_branches, bind, print, emit. intros Hrun.
  pose (I := fun (todo : list (nat * Branch)) (acc : list BranchLocation) =>
               exists done,
                 branches = done ++ map snd todo /\
                 sublist (map branch_of acc) done).
  assert (Hend : I [] out).
  { apply (for_branches_invariant svc (length branches) I) with (3 := Hrun).
    - intros i b rest acc t0 acc' t0' (done & Hb & Hsub) Hbody.
      exists (done ++ [b]). split.
      + rewrite Hb. simpl. rewrite <- app_assoc. reflexivity.
      + apply branch_body_cases in Hbody
          as [->|(lat & lon & t2 & _ & _ & _ & ->)].
        * apply sublist_inserts_r. exact Hsub.
        * rewrite map_app. apply sublist_app; [exact Hsub|].
          simpl. unfold branch_of. simpl. destruct b. reflexivity.
    - exists []. split; [|constructor].
      simpl. rewrite enumerate_snd. reflexivity. }
  destruct Hend as (done & Hb & Hsub).
  simpl in Hb. rewrite app_nil_r in Hb. subst done. exact Hsub.
Qed.

Lemma geocode_branches_preserves_order_witness :
  sublist (map branch_of [miami_found]) two_branches.
Proof.
  apply (geocode_branches_preserves_order only_miami two_branches []
           [miami_found] (snd (geocode_branches only_miami two_branches []))).
  vm_compute. reflexivity.
Defined.

(** C9: when [geocode_address] returns a pair of floats of which the
    latitude or the longitude equals zero, the batch loop reports the
    branch as failed, appends nothing to the list, and goes on with the
    remaining branches. *)
Theorem zero_coordinate_is_dropped svc total i b rest acc t lat lon t2 :
  geocode_address svc (address b) 3
    (t ++ [Print (GeocodingProgress i total (name b))])
  = (Ret (Some lat, Some lon), t2) ->
  PrimFloat.eqb lat 0 = true \/ PrimFloat.eqb lon 0 = true ->
  for_branches svc total ((i, b) :: rest) acc t =
  for_branches svc total rest acc
    (t2 ++ [Print (FailedBranch (address b)); Sleep 1]).
Proof.
  intros Hgeo Hzero. simpl. unfold bind at 1.
  rewrite branch_body_eq, Hgeo.
  assert (Hfalsy : truthy (Some lat) && truthy (Some lon) = false).
  { simpl. destruct Hzero as [-> | ->]; simpl; [reflexivity|].
    apply andb_false_r. }
  rewrite Hfalsy. reflexivity.
Qed.

Lemma zero_coordinate_is_dropped_witness :
  for_branches on_the_equator 1 [(1%nat, quito)] [] [] =
  for_branches on_the_equator 1 [] []
    ([Print (GeocodingProgress 1 1 "Quito"); Lookup "Av. Amazonas, Quito"]
       ++ [Print (FailedBranch (address quito)); Sleep 1]).
Proof.
  apply (zero_coordinate_is_dropped on_the_equator 1 1 quito [] [] []
           0%float (-80.5)%float).
  - reflexivity.
  - left. reflexivity.
Defined.

(** ** Errors the [except] clause does not name *)

(** C2, as the code has it: an error of a class other than
    [GeocoderTimedOut] and [GeocoderServiceError], raised by any lookup
    [geocode_address] makes, leaves [geocode_address] as that error; no
    failure value is returned.  Called from the batch loop (retry bound 3),
    the error leaves the loop as well, whatever the list built so far
    holds and whatever branches are still to come. *)
Theorem other_errors_propagate svc (b : Branch) R (k : nat) e t :
  Z.of_nat k < R ->
  (forall j : nat,
      (j < k)%nat ->
      continues R (Z.of_nat j) (svc (calls t + j)%nat (address b)) = true) ->
  svc (calls t + k)%nat (address b) = Raise e ->
  is_geocoder_error e = false ->
  let t' :=
    t ++ retry_events svc (address b) (calls t) (range (Z.of_nat k))
      ++ [Lookup (address b)] in
  geocode_address svc (address b) R t = (Raise e, t') /\
  (R = 3 ->
   forall total i rest acc t0,
     t = t0 ++ [Print (GeocodingProgress i total (name b))] ->
     for_branches svc total ((i, b) :: rest) acc t0 = (Raise e, t')).
Proof.
  intros Hk Hpre He Hcls t'.
  assert (Hgeo : geocode_address svc (address b) R t = (Raise e, t')).
  { subst t'.
    replace R with (Z.of_nat (k + S (Z.to_nat R - k - 1))) in * by lia.
    rewrite geocode_address_prefix by exact Hpre.
    simpl. unfold bind. rewrite attempt_body_eq, calls_app.
    rewrite calls_retry_events, length_range, He, Hcls.
    rewrite <- app_assoc. reflexivity. }
  split; [exact Hgeo|].
  intros -> total i rest acc t0 Ht. simpl. unfold bind at 1.
  rewrite branch_body_eq, <- Ht, Hgeo. reflexivity.
Qed.

Lemma other_errors_propagate_witness :
  let e := Exception "unexpected failure" in
  let t := [Print (GeocodingProgress 2 2 (name ocala))] in
  let t' := t ++ [] ++ [Lookup (address ocala)] in
  geocode_address breaks_after_miami (address ocala) 3 t = (Raise e, t') /\
  (3 = 3 ->
   forall total i rest acc t0,
     t = t0 ++ [Print (GeocodingProgress i total (name ocala))] ->
     for_branches breaks_after_miami total ((i, ocala) :: rest) acc t0
     = (Raise e, t')).
Proof.
  apply (other_errors_propagate breaks_after_miami ocala 3 0
           (Exception "unexpected failure")
           [Print (GeocodingProgress 2 2 (name ocala))]).
  - lia.
  - intros j Hj. lia.
  - reflexivity.
  - reflexivity.
Defined.

(** C2 as stated fails: the error of the second branch is not turned into
    [(None, None)], and it ends the batch although the first branch was
    geocoded. *)
Lemma permanent_error_escapes :
  fst (geocode_address breaks_after_miami (address ocala) 3 [])
    = Raise (Exception "unexpected failure") /\
  fst (geocode_address breaks_after_miami (address ocala) 3 [])
    <> Ret (None, None) /\
  fst (geocode_branches breaks_after_miami two_branches [])
    = Raise (Exception "unexpected failure").
Proof.
  split; [|split].
  - vm_compute. reflexivity.
  - vm_compute. discriminate.
  - vm_compute. reflexivity.
Qed.

(** ** When nothing but geocoder errors is raised *)

Lemma for_branches_returns svc total :
  only_geocoder_errors svc ->
  forall todo acc t,
    exists out t', for_branches svc total todo acc t = (Ret out, t').
Proof.
  intros Hsvc todo.
  induction todo as [|[i b] rest IH]; intros acc t; simpl.
  - unfold ret. eauto.
  - unfold bind. rewrite branch_body_eq.
    destruct (for_attempts_returns svc (address b) 3 Hsvc (range 3)
                (t ++ [Print (GeocodingProgress i total (name b))]))
      as ([lat lon] & t2 & Hgeo).
    unfold geocode_address. rewrite Hgeo.
    destruct (truthy lat && truthy lon); apply IH.
Qed.

(** An iteration never removes an entry. *)
Lemma branch_body_keeps svc total i b acc t acc' t' bl :
  branch_body svc total i b acc t = (Ret acc', t') ->
  In bl acc -> In bl acc'.
Proof.
  intros Hbody Hin.
  apply branch_body_cases in Hbody as [->|(lat & lon & t2 & _ & _ & _ & ->)];
    [exact Hin|].
  apply in_or_app. left. exact Hin.
Qed.

(** C1, as the code has it: an address whose lookup raises a geocoder
    error on every attempt is looked up exactly 3 times, with a backoff of
    1 after the first attempt and of 2 after the second and none after the
    third, and failure is returned.  In the batch (no other kind of error
    being raised) no entry of the returned list has that address, while
    every branch whose address the service resolves to truthy coordinates
    has its entry in the list. *)
Theorem persistent_timeout_is_dropped svc bad branches t :
  (forall n : nat, geocoder_error (svc n bad) = true) ->
  only_geocoder_errors svc ->
  (exists e,
      geocode_address svc bad 3 t =
      (Ret (None, None),
       t ++ [Lookup bad; Sleep 1; Lookup bad; Sleep 2; Lookup bad;
             Print (FailedToGeocode bad e)])) /\
  exists out t',
    geocode_branches svc branches t = (Ret out, t') /\
    Forall (fun bl => bl_address bl <> bad) out /\
    forall b l,
      In b branches ->
      (forall n : nat, svc n (address b) = Ret (Some l)) ->
      truthy (Some (loc_latitude l)) = true ->
      truthy (Some (loc_longitude l)) = true ->
      In (located_entry b (Some (loc_latitude l)) (Some (loc_longitude l)))
         out.
Proof.
  intros Hbad Hsvc.
  assert (Hfail : forall t0, exists e,
             geocode_address svc bad 3 t0 =
             (Ret (None, None),
              t0 ++ [Lookup bad; Sleep 1; Lookup bad; Sleep 2; Lookup bad;
                     Print (FailedToGeocode bad e)])).
  { intros t0.
    destruct (geocode_address_all_errors svc bad 2 t0) as (e & _ & Hrun).
    - intros j _. apply Hbad.
    - exists e. exact Hrun. }
  split; [apply Hfail|].
  unfold geocode_branches, bind, print, emit.
  destruct (for_branches_returns svc (length branches) Hsvc
              (enumerate 1 branches) []
              (t ++ [Print (Text "Geocoding Fortiline branch addresses...")]))
    as (out & t' & Hrun).
  exists out, t'. split; [exact Hrun|]. split.
  - apply (for_branches_invariant svc (length branches)
             (fun _ acc => Forall (fun bl => bl_address bl <> bad) acc))
      with (3 := Hrun); [|constructor].
    intros i b rest acc t0 acc' t0' Hacc Hbody.
    apply branch_body_cases in Hbody
      as [->|(lat & lon & t2 & Hgeo & Hlat & Hlon & ->)]; [exact Hacc|].
    apply Forall_app. split; [exact Hacc|].
    constructor; [|constructor]. simpl. intros Heq.
    rewrite Heq in Hgeo.
    destruct (Hfail (t0 ++ [Print (GeocodingProgress i (length branches) (name b))]))
      as (e & Hrun').
    rewrite Hrun' in Hgeo. injection Hgeo as <- _ _. discriminate.
  - intros b l Hin Hgood Hlat Hlon.
    pose (I := fun (todo : list (nat * Branch)) (acc : list BranchLocation) =>
                 In b (map snd todo) \/
                 In (located_entry b (Some (loc_latitude l))
                       (Some (loc_longitude l))) acc).
    assert (Hend : I [] out).
    { apply (for_branches_invariant svc (length branches) I) with (3 := Hrun).
      - intros i b0 rest acc t0 acc' t0' [[Hhere|Hlater]|Hdone] Hbody.
        + simpl in Hhere. subst b0. right.
          rewrite branch_body_eq in Hbody.
          rewrite (geocode_address_first_try svc (address b) 3 l) in Hbody
            by (try lia; apply Hgood).
          rewrite Hlat, Hlon in Hbody. simpl in Hbody.
          injection Hbody as <- _. apply in_or_app. right. left. reflexivity.
        + left. exact Hlater.
        + right. eapply branch_body_keeps; eauto.
      - left. rewrite enumerate_snd. exact Hin. }
    destruct Hend as [[]|Hend]. exact Hend.
Qed.

Lemma persistent_timeout_is_dropped_witness :
  (exists e,
      geocode_address one_dead_address (address atlantis) 3 [] =
      (Ret (None, None),
       [] ++ [Lookup (address atlantis); Sleep 1;
              Lookup (address atlantis); Sleep 2;
              Lookup (address atlantis);
              Print (FailedToGeocode (address atlantis) e)])) /\
  exists out t',
    geocode_branches one_dead_address three_branches [] = (Ret out, t') /\
    Forall (fun bl => bl_address bl <> address atlantis) out /\
    forall b l,
      In b three_branches ->
      (forall n : nat, one_dead_address n (address b) = Ret (Some l)) ->
      truthy (Some (loc_latitude l)) = true ->
      truthy (Some (loc_longitude l)) = true ->
      In (located_entry b (Some (loc_latitude l)) (Some (loc_longitude l)))
         out.
Proof.
  apply (persistent_timeout_is_dropped one_dead_address (address atlantis)
           three_branches []).
  - intros n. reflexivity.
  - intros n a e. unfold one_dead_address.
    destruct (String.eqb a "1 Nowhere Rd, Atlantis, FL 00000").
    + intros [= <-]. reflexivity.
    + discriminate.
Defined.

(** C1 as stated fails: three attempts are made and failure is returned,
    but only the delays 1 and 2 are slept, inside [geocode_address] and
    in the batch alike (where the third sleep of the branch is the fixed
    pause of 1 between addresses); no delay of 4 occurs. *)
Lemma no_backoff_after_last_attempt :
  fst (geocode_address always_times_out "1 Nowhere Rd, Atlantis, FL 00000" 3 [])
    = Ret (None, None) /\
  length (lookups (snd (geocode_address always_times_out
                          "1 Nowhere Rd, Atlantis, FL 00000" 3 []))) = 3%nat /\
  sleeps (snd (geocode_address always_times_out
                 "1 Nowhere Rd, Atlantis, FL 00000" 3 [])) = [1; 2] /\
  sleeps (snd (geocode_address always_times_out
                 "1 Nowhere Rd, Atlantis, FL 00000" 3 [])) <> [1; 2; 4] /\
  sleeps (snd (geocode_branches one_dead_address [atlantis] [])) = [1; 2; 1] /\
  ~ In 4 (sleeps (snd (geocode_branches one_dead_address three_branches []))).
Proof.
  repeat split; try (vm_compute; reflexivity).
  - vm_compute. discriminate.
  - vm_compute. intuition discriminate.
Qed.

(** ** get_florida_counties *)

Lemma get_florida_counties_eq env t :
  get_florida_counties env t =
  match primary env with
  | Ret counties =>
      (Ret counties,
       t ++ [ Print (Text "Downloading Florida county boundaries...");
              Print (Text "  Downloading US counties shapefile (this may take a moment)...");
              Download counties_url;
              Print (Loaded (length counties)) ])
  | Raise e => (Raise primary_failed, t ++ failed_fetch e)
  end.
Proof.
  unfold get_florida_counties, try_except, bind, print, emit, ret, raise,
    is_exception, failed_fetch.
  destruct (primary env) as [counties|e];
    repeat rewrite <- app_assoc; reflexivity.
Qed.

(** ** main *)

(** [main], stage by stage. *)
Lemma main_eq env t :
  main env t =
  match get_florida_counties env (t ++ main_header) with
  | (Raise e, t1) => (Raise e, t1 ++ troubleshooting e)
  | (Ret counties, t1) =>
      match geocode_branches (service env) get_fortiline_branches t1 with
      | (Raise e, t2) => (Raise e, t2 ++ troubleshooting e)
      | (Ret [], t2) =>
          (Ret tt,
           t2 ++ [Print (Text "ERROR: No branches were successfully geocoded!")])
      | (Ret (bl :: bls), t2) =>
          let drawn :=
            [ Print (Text "Creating interactive map...");
              CreateMap counties (bl :: bls) ] in
          match render env with
          | Raise e => (Raise e, t2 ++ drawn ++ troubleshooting e)
          | Ret _ =>
              let saved := drawn ++ [SaveMap "fortiline_florida_map.html"] in
              match save env with
              | Raise e => (Raise e, t2 ++ saved ++ troubleshooting e)
              | Ret _ =>
                  (Ret tt,
                   t2 ++ saved ++
                     [ Print (Text (nl ++ banner)%string);
                       Print (MapCreated "fortiline_florida_map.html");
                       Print (CountCounties (length counties));
                       Print (CountBranches (length (bl :: bls)));
                       Print (OpenHint "fortiline_florida_map.html");
                       Print (Text banner) ])
              end
          end
      end
  end.
Proof.
  unfold main, create_map, save_map, main_header, troubleshooting,
    try_except, bind, print, emit, ret, raise, is_exception.
  repeat rewrite <- app_assoc. cbn [app].
  destruct (get_florida_counties env _) as [[counties|e] t1];
    [|repeat rewrite <- app_assoc; reflexivity].
  destruct (geocode_branches (service env) get_fortiline_branches t1)
    as [[[|bl bls]|e] t2]; cbn [is_empty];
    [reflexivity| |repeat rewrite <- app_assoc; reflexivity].
  destruct (render env) as [[]|e];
    [|repeat rewrite <- app_assoc; reflexivity].
  destruct (save env) as [[]|e];
    repeat rewrite <- app_assoc; reflexivity.
Qed.

(** *** The renderer is invoked by [create_map] only *)

Lemma attempt_body_rendered svc a R i t :
  rendered (snd (attempt_body svc a R i t)) = rendered t.
Proof.
  rewrite attempt_body_eq.
  destruct (svc (calls t) a) as [[l|]|e]; simpl.
  - rewrite rendered_app. apply orb_false_r.
  - rewrite rendered_app. apply orb_false_r.
  - destruct (is_geocoder_error e); [destruct (i <? R - 1)|]; simpl;
      rewrite rendered_app; apply orb_false_r.
Qed.

Lemma for_attempts_rendered svc a R l :
  forall t, rendered (snd (for_attempts svc a R l t)) = rendered t.
Proof.
  induction l as [|i l IH]; intros t; simpl; [reflexivity|].
  unfold bind. pose proof (attempt_body_rendered svc a R i t) as Hb.
  destruct (attempt_body svc a R i t) as [[[v|]|e] t1]; simpl in *.
  - exact Hb.
  - rewrite IH. exact Hb.
  - exact Hb.
Qed.

Lemma branch_body_rendered svc total i b acc t :
  rendered (snd (branch_body svc total i b acc t)) = rendered t.
Proof.
  rewrite branch_body_eq.
  pose proof (for_attempts_rendered svc (address b) 3 (range 3)
                (t ++ [Print (GeocodingProgress i total (name b))])) as Hg.
  rewrite rendered_app, orb_false_r in Hg. fold (geocode_address svc (address b) 3) in Hg.
  destruct (geocode_address svc (address b) 3 _) as [[[lat lon]|e] t2];
    simpl in *; [|exact Hg].
  destruct (truthy lat && truthy lon); simpl;
    rewrite rendered_app, orb_false_r; exact Hg.
Qed.

Lemma for_branches_rendered svc total todo :
  forall acc t,
    rendered (snd (for_branches svc total todo acc t)) = rendered t.
Proof.
  induction todo as [|[i b] rest IH]; intros acc t; simpl; [reflexivity|].
  unfold bind. pose proof (branch_body_rendered svc total i b acc t) as Hb.
  destruct (branch_body svc total i b acc t) as [[acc'|e] t1]; simpl in *.
  - rewrite IH. exact Hb.
  - exact Hb.
Qed.

Lemma geocode_branches_rendered svc branches t :
  rendered (snd (geocode_branches svc branches t)) = rendered t.
Proof.
  unfold geocode_branches, bind, print, emit.
  rewrite for_branches_rendered, rendered_app. apply orb_false_r.
Qed.

Lemma get_florida_counties_rendered env t :
  rendered (snd (get_florida_counties env t)) = rendered t.
Proof.
  rewrite get_florida_counties_eq.
  destruct (primary env) as [counties|e]; simpl;
    rewrite rendered_app; apply orb_false_r.
Qed.

(** C3, as the code has it: when the batch yields no geocoded branch,
    [main] prints the line "ERROR: No branches were successfully
    geocoded!" and returns at once, before [create_map] is invoked; it
    returns normally, raising nothing. *)
Theorem main_returns_when_nothing_geocoded env counties t1 t2 :
  get_florida_counties env main_header = (Ret counties, t1) ->
  geocode_branches (service env) get_fortiline_branches t1 = (Ret [], t2) ->
  main env [] =
    (Ret tt,
     t2 ++ [Print (Text "ERROR: No branches were successfully geocoded!")]) /\
  rendered (snd (main env [])) = false.
Proof.
  intros Hc Hg.
  assert (Hmain : main env [] =
                  (Ret tt,
                   t2 ++ [Print (Text "ERROR: No branches were successfully geocoded!")])).
  { rewrite main_eq. cbn [app]. rewrite Hc, Hg. reflexivity. }
  split; [exact Hmain|].
  rewrite Hmain. cbn [snd]. rewrite rendered_app, orb_false_r.
  replace t2 with
    (snd (geocode_branches (service env) get_fortiline_branches t1))
    by (rewrite Hg; reflexivity).
  rewrite geocode_branches_rendered.
  replace t1 with (snd (get_florida_counties env main_header))
    by (rewrite Hc; reflexivity).
  rewrite get_florida_counties_rendered. reflexivity.
Qed.

Lemma main_returns_when_nothing_geocoded_witness :
  main nothing_found_env [] =
    (Ret tt,
     snd (geocode_branches never_finds get_fortiline_branches
            (snd (get_florida_counties nothing_found_env main_header)))
       ++ [Print (Text "ERROR: No branches were successfully geocoded!")]) /\
  rendered (snd (main nothing_found_env [])) = false.
Proof.
  apply (main_returns_when_nothing_geocoded nothing_found_env
           ["Miami-Dade"; "Broward"]
           (snd (get_florida_counties nothing_found_env main_header))).
  - vm_compute. reflexivity.
  - vm_compute. reflexivity.
Defined.

(** C3 as stated fails: with no branch geocoded, [main] ends exactly as a
    successful run ends, by returning; no error is raised. *)
Lemma zero_successes_exit_like_success :
  fst (geocode_branches (service nothing_found_env) get_fortiline_branches
         (snd (get_florida_counties nothing_found_env main_header))) = Ret [] /\
  fst (main nothing_found_env []) = Ret tt /\
  rendered (snd (main working_env [])) = true /\
  fst (main nothing_found_env []) = fst (main working_env []) /\
  (forall e, fst (main nothing_found_env []) <> Raise e).
Proof.
  repeat split; try (vm_compute; reflexivity).
  intros e. vm_compute. discriminate.
Qed.

(** C8: when the primary download fails, [get_florida_counties] raises:
    the fallback branch raises before it fetches anything (the trace holds
    the one download of the Census file and no other), so no county table
    is returned; [main] reports the error and raises it again, without
    having looked up an address or drawn a map. *)
Theorem boundary_failure_is_fatal env e t :
  primary env = Raise e ->
  get_florida_counties env t = (Raise primary_failed, t ++ failed_fetch e) /\
  main env [] =
    (Raise primary_failed,
     main_header ++ failed_fetch e ++ troubleshooting primary_failed) /\
  lookups (snd (main env [])) = [] /\
  rendered (snd (main env [])) = false.
Proof.
  intros Hp.
  assert (Hg : forall t0, get_florida_counties env t0 =
                          (Raise primary_failed, t0 ++ failed_fetch e)).
  { intros t0. rewrite get_florida_counties_eq, Hp. reflexivity. }
  assert (Hmain : main env [] =
                  (Raise primary_failed,
                   main_header ++ failed_fetch e
                     ++ troubleshooting primary_failed)).
  { rewrite main_eq, Hg. cbn [app]. reflexivity. }
  split; [apply Hg|]. split; [exact Hmain|].
  rewrite Hmain. split; reflexivity.
Qed.

Lemma boundary_failure_is_fatal_witness :
  get_florida_counties offline_env [] =
    (Raise primary_failed, [] ++ failed_fetch (Exception "Connection refused")) /\
  main offline_env [] =
    (Raise primary_failed,
     main_header ++ failed_fetch (Exception "Connection refused")
       ++ troubleshooting primary_failed) /\
  lookups (snd (main offline_env [])) = [] /\
  rendered (snd (main offline_env [])) = false.
Proof.
  apply (boundary_failure_is_fatal offline_env (Exception "Connection refused") []).
  reflexivity.
Defined.

(** * Further properties *)

(** ** The traces of the retry loop *)

Section RetryTraces.

Variable svc : Service.
Variable a : string.
Variable R : Z.

(** Whatever the service answers, the loop adds to the trace events of the
    shape [attempts_trace] describes. *)
Lemma for_attempts_trace l :
  forall t, exists evs,
    snd (for_attempts svc a R l t) = t ++ evs /\ attempts_trace a R l evs.
Proof.
  induction l as [|i l IH]; intros t; simpl.
  - exists []. rewrite app_nil_r. split; [reflexivity|constructor].
  - unfold bind. rewrite attempt_body_eq.
    destruct (svc (calls t) a) as [[loc|]|e].
    + exists [Lookup a]. split; [reflexivity|constructor].
    + destruct (IH (t ++ [Lookup a; Sleep 1])) as (evs & Hsnd & Hevs).
      exists (Lookup a :: Sleep 1 :: evs). split.
      * rewrite Hsnd, <- app_assoc. reflexivity.
      * constructor; [left; reflexivity|exact Hevs].
    + destruct (is_geocoder_error e).
      * destruct (i <? R - 1) eqn:Hi.
        -- destruct (IH (t ++ [Lookup a; Sleep (2 ^ i)]))
             as (evs & Hsnd & Hevs).
           exists (Lookup a :: Sleep (2 ^ i) :: evs). split.
           ++ rewrite Hsnd, <- app_assoc. reflexivity.
           ++ constructor; [|exact Hevs].
              right. split; [reflexivity|]. apply Z.ltb_lt. exact Hi.
        -- exists [Lookup a; Print (FailedToGeocode a e)].
           split; [reflexivity|constructor].
      * exists [Lookup a]. split; [reflexivity|constructor].
Qed.

(** Where the outcome of the loop comes from: coordinates are those of a
    location the service answered, an error is one the service raised and
    the [except] clause does not name. *)
Lemma for_attempts_outcome l :
  forall t,
    match fst (for_attempts svc a R l t) with
    | Ret (lat, lon) =>
        (lat = None /\ lon = None) \/
        exists (n : nat) (loc : Location),
          (calls t <= n < calls t + length l)%nat /\
          svc n a = Ret (Some loc) /\
          lat = Some (loc_latitude loc) /\ lon = Some (loc_longitude loc)
    | Raise e =>
        is_geocoder_error e = false /\
        exists n : nat,
          (calls t <= n < calls t + length l)%nat /\ svc n a = Raise e
    end.
Proof.
  induction l as [|i l IH]; intros t; simpl.
  - left. split; reflexivity.
  - unfold bind. rewrite attempt_body_eq.
    assert (Hnext : forall d,
               match fst (for_attempts svc a R l (t ++ [Lookup a; Sleep d])) with
               | Ret (lat, lon) =>
                   (lat = None /\ lon = None) \/
                   exists (n : nat) (loc : Location),
                     (calls t <= n < calls t + S (length l))%nat /\
                     svc n a = Ret (Some loc) /\
                     lat = Some (loc_latitude loc) /\
                     lon = Some (loc_longitude loc)
               | Raise e =>
                   is_geocoder_error e = false /\
                   exists n : nat,
                     (calls t <= n < calls t + S (length l))%nat /\
                     svc n a = Raise e
               end).
    { intros d. specialize (IH (t ++ [Lookup a; Sleep d])).
      assert (Hc : calls (t ++ [Lookup a; Sleep d]) = S (calls t)).
      { rewrite calls_app. simpl. lia. }
      destruct (fst (for_attempts svc a R l (t ++ [Lookup a; Sleep d])))
        as [[lat lon]|e].
      - destruct IH as [IH|(n & loc & Hn & IH)]; [left; exact IH|].
        right. exists n, loc. split; [lia|exact IH].
      - destruct IH as (He & n & Hn & IH). split; [exact He|].
        exists n. split; [lia|exact IH]. }
    destruct (svc (calls t) a) as [[loc|]|e] eqn:E.
    + simpl. right. exists (calls t), loc. repeat split; try lia. exact E.
    + simpl.
      destruct (for_attempts svc a R l (t ++ [Lookup a; Sleep 1]))
        as [r t1] eqn:Er.
      specialize (Hnext 1). rewrite Er in Hnext.
      destruct r; exact Hnext.
    + destruct (is_geocoder_error e) eqn:He.
      * destruct (i <? R - 1).
        -- simpl.
           destruct (for_attempts svc a R l (t ++ [Lookup a; Sleep (2 ^ i)]))
             as [r t1] eqn:Er.
           specialize (Hnext (2 ^ i)). rewrite Er in Hnext.
           destruct r; exact Hnext.
        -- simpl. left. split; reflexivity.
      * simpl. split; [exact He|]. exists (calls t). split; [lia|exact E].
Qed.

End RetryTraces.

(** *** What traces of that shape have in common *)

Lemma range_nonneg (n : Z) : Forall (fun i => 0 <= i) (range n).
Proof.
  unfold range. apply List.Forall_forall. intros i Hi.
  apply in_map_iff in Hi as (j & <- & _). lia.
Qed.

Lemma attempts_trace_lookups a R l evs :
  attempts_trace a R l evs ->
  lookups evs = repeat a (calls evs) /\ (calls evs <= length l)%nat.
Proof.
  induction 1 as [|i l d evs Hd Hevs [IHl IHc]|i l|i l e]; simpl.
  - split; [reflexivity|lia].
  - rewrite IHl. split; [reflexivity|lia].
  - split; [reflexivity|lia].
  - split; [reflexivity|lia].
Qed.

Lemma attempts_trace_starts a R i l evs :
  attempts_trace a R (i :: l) evs -> exists rest, evs = Lookup a :: rest.
Proof. inversion 1; subst; eauto. Qed.

Lemma max_delay_nonneg R l : 0 <= max_delay R l.
Proof.
  unfold max_delay. induction l as [|i l IH]; simpl; [lia|].
  destruct (i <? R - 1); [|lia].
  pose proof (Z.pow_nonneg 2 i ltac:(lia)). lia.
Qed.

Lemma attempts_trace_sleeps a R l evs :
  Forall (fun i => 0 <= i) l ->
  attempts_trace a R l evs ->
  Forall (fun d => 1 <= d) (sleeps evs) /\ sum (sleeps evs) <= max_delay R l.
Proof.
  intros Hl Hevs. revert Hl.
  induction Hevs as [|i l d evs Hd Hevs IH|i l|i l e]; intros Hl; simpl.
  - split; [constructor|unfold max_delay; simpl; lia].
  - apply Forall_cons in Hl as [Hi Hl]. destruct (IH Hl) as [IHs IHm].
    assert (Hpow : 1 <= 2 ^ i)
      by (pose proof (Z.pow_pos_nonneg 2 i ltac:(lia) Hi); lia).
    unfold max_delay in *. simpl. split.
    + constructor; [|exact IHs]. destruct Hd as [->|[-> _]]; lia.
    + destruct Hd as [->|[-> Hlt]].
      * destruct (i <? R - 1); lia.
      * apply Z.ltb_lt in Hlt. rewrite Hlt. lia.
  - split; [constructor|apply max_delay_nonneg].
  - split; [constructor|apply max_delay_nonneg].
Qed.

Lemma max_delay_range (n : nat) :
  max_delay (Z.of_nat (S n)) (range (Z.of_nat (S n))) = 2 ^ Z.of_nat n.
Proof.
  unfold max_delay. rewrite range_S, map_app, sum_app. simpl.
  replace (Z.of_nat n <? Z.of_nat (S n) - 1) with false
    by (symmetry; apply Z.ltb_ge; lia).
  rewrite (map_ext_in _ (fun i => 2 ^ i)).
  - rewrite sum_backoff, backoff_total_closed. simpl. lia.
  - intros i Hi. unfold range in Hi.
    apply in_map_iff in Hi as (j & <- & Hj). apply in_seq in Hj.
    replace (Z.of_nat j <? Z.of_nat (S n) - 1) with true; [reflexivity|].
    symmetry. apply Z.ltb_lt. rewrite Nat2Z.id in Hj. lia.
Qed.

Lemma paced_app t t' :
  forall rested,
    paced rested (t ++ t') =
    paced rested t && paced (rested_after rested t) t'.
Proof.
  induction t as [|ev t IH]; intros rested; simpl; [reflexivity|].
  destruct ev; simpl; rewrite IH; try reflexivity.
  apply andb_assoc.
Qed.

Lemma rested_after_app t t' :
  forall rested,
    rested_after rested (t ++ t') = rested_after (rested_after rested t) t'.
Proof.
  induction t as [|ev t IH]; intros rested; simpl; [reflexivity|].
  destruct ev; simpl; apply IH.
Qed.

Lemma attempts_trace_paced a R l evs :
  Forall (fun i => 0 <= i) l ->
  attempts_trace a R l evs ->
  paced true evs = true.
Proof.
  intros Hl Hevs.
  destruct (attempts_trace_sleeps a R l evs Hl Hevs) as [Hs _]. clear Hl.
  induction Hevs as [|i l d evs Hd Hevs IH|i l|i l e]; simpl;
    try reflexivity.
  simpl in Hs. apply Forall_cons in Hs as [Hd1 Hs].
  replace (1 <=? d) with true by (symmetry; apply Z.leb_le; exact Hd1).
  apply IH. exact Hs.
Qed.

(** ** More on geocode_address *)

(** X1: an address the service finds on the first attempt is returned
    after that one lookup, with nothing slept. *)
Theorem first_answer_returned_without_delay svc a R loc t :
  0 < R ->
  svc (calls t) a = Ret (Some loc) ->
  fst (geocode_address svc a R t)
    = Ret (Some (loc_latitude loc), Some (loc_longitude loc)) /\
  calls (snd (geocode_address svc a R t)) = S (calls t) /\
  sleeps (snd (geocode_address svc a R t)) = sleeps t.
Proof.
  intros HR Hloc. rewrite (geocode_address_first_try svc a R loc t HR Hloc).
  cbn [fst snd]. rewrite calls_app, sleeps_app. simpl.
  rewrite app_nil_r. repeat split. lia.
Qed.

Lemma first_answer_returned_without_delay_witness :
  fst (geocode_address always_finds "Miami" 3 [])
    = Ret (Some 25.5%float, Some (-80.5)%float) /\
  calls (snd (geocode_address always_finds "Miami" 3 [])) = 1%nat /\
  sleeps (snd (geocode_address always_finds "Miami" 3 [])) = [].
Proof.
  apply (first_answer_returned_without_delay always_finds "Miami" 3
           (mkLocation 25.5%float (-80.5)%float) []).
  - lia.
  - reflexivity.
Defined.

(** X2: with a retry bound of zero or less, failure is returned without
    any lookup; the trace is left as it was. *)
Theorem no_attempt_without_budget svc a R t :
  R <= 0 ->
  geocode_address svc a R t = (Ret (None, None), t).
Proof.
  intros HR. unfold geocode_address, range.
  replace (Z.to_nat R) with O by lia. reflexivity.
Qed.

Lemma no_attempt_without_budget_witness :
  geocode_address always_finds "Miami" 0 [] = (Ret (None, None), []).
Proof.
  apply (no_attempt_without_budget always_finds "Miami" 0 []). lia.
Defined.

(** X3: whatever the service answers, [geocode_address] looks up the
    address it was given and no other, at most [max_retries] times. *)
Theorem geocode_address_lookup_budget svc a R t :
  exists evs,
    snd (geocode_address svc a R t) = t ++ evs /\
    lookups evs = repeat a (calls evs) /\
    (calls evs <= Z.to_nat R)%nat.
Proof.
  destruct (for_attempts_trace svc a R (range R) t) as (evs & Hsnd & Hevs).
  exists evs. split; [exact Hsnd|].
  apply attempts_trace_lookups in Hevs as [Hl Hc].
  split; [exact Hl|].
  unfold range in Hc. rewrite length_map, length_seq in Hc. exact Hc.
Qed.

(** X4: whatever the service answers, every sleep of [geocode_address]
    lasts at least 1, and for a retry bound [R >= 1] they add up to at most
    [2^(R-1)] (4 for the default bound of 3). *)
Theorem geocode_address_delay_bound svc a R t :
  1 <= R ->
  exists evs,
    snd (geocode_address svc a R t) = t ++ evs /\
    Forall (fun d => 1 <= d) (sleeps evs) /\
    sum (sleeps evs) <= 2 ^ (R - 1).
Proof.
  intros HR.
  destruct (for_attempts_trace svc a R (range R) t) as (evs & Hsnd & Hevs).
  exists evs. split; [exact Hsnd|].
  apply attempts_trace_sleeps in Hevs as [Hs Hm]; [|apply range_nonneg].
  split; [exact Hs|].
  replace R with (Z.of_nat (S (Z.to_nat (R - 1)))) in Hm by lia.
  rewrite max_delay_range in Hm.
  replace (Z.of_nat (Z.to_nat (R - 1))) with (R - 1) in Hm by lia.
  exact Hm.
Qed.

Lemma geocode_address_delay_bound_witness :
  exists evs,
    snd (geocode_address always_times_out "nowhere" 3 []) = [] ++ evs /\
    Forall (fun d => 1 <= d) (sleeps evs) /\
    sum (sleeps evs) <= 2 ^ (3 - 1).
Proof.
  apply (geocode_address_delay_bound always_times_out "nowhere" 3 []). lia.
Defined.

(** X5: the pair [geocode_address] returns is either [(None, None)] or the
    latitude and longitude of a location the service answered to one of
    the lookups just made; it is never half filled. *)
Theorem geocode_address_returns_service_coordinates svc a R t lat lon t' :
  geocode_address svc a R t = (Ret (lat, lon), t') ->
  (lat = None /\ lon = None) \/
  exists (n : nat) (loc : Location),
    (calls t <= n < calls t + Z.to_nat R)%nat /\
    svc n a = Ret (Some loc) /\
    lat = Some (loc_latitude loc) /\ lon = Some (loc_longitude loc).
Proof.
  intros Hrun. pose proof (for_attempts_outcome svc a R (range R) t) as H.
  unfold geocode_address in Hrun. rewrite Hrun in H. cbn [fst] in H.
  unfold range in H. rewrite length_map, length_seq in H. exact H.
Qed.

Lemma geocode_address_returns_service_coordinates_witness :
  (Some 25.5%float = None /\ Some (-80.5)%float = None) \/
  exists (n : nat) (loc : Location),
    (calls [] <= n < calls [] + Z.to_nat 3)%nat /\
    times_out_twice n "Miami" = Ret (Some loc) /\
    Some 25.5%float = Some (loc_latitude loc) /\
    Some (-80.5)%float = Some (loc_longitude loc).
Proof.
  apply (geocode_address_returns_service_coordinates times_out_twice "Miami"
           3 [] (Some 25.5%float) (Some (-80.5)%float)
           (snd (geocode_address times_out_twice "Miami" 3 []))).
  vm_compute. reflexivity.
Defined.

(** X6: an error leaves [geocode_address] only if one of the lookups just
    made raised it and its class is not one the [except] clause names;
    [GeocoderTimedOut] and [GeocoderServiceError] never escape. *)
Theorem geocode_address_raises_only_foreign_errors svc a R t e t' :
  geocode_address svc a R t = (Raise e, t') ->
  is_geocoder_error e = false /\
  exists n : nat,
    (calls t <= n < calls t + Z.to_nat R)%nat /\ svc n a = Raise e.
Proof.
  intros Hrun. pose proof (for_attempts_outcome svc a R (range R) t) as H.
  unfold geocode_address in Hrun. rewrite Hrun in H. cbn [fst] in H.
  unfold range in H. rewrite length_map, length_seq in H. exact H.
Qed.

Lemma geocode_address_raises_only_foreign_errors_witness :
  is_geocoder_error (Exception "unexpected failure") = false /\
  exists n : nat,
    (calls [] <= n < calls [] + Z.to_nat 3)%nat /\
    breaks_after_miami n (address ocala)
    = Raise (Exception "unexpected failure").
Proof.
  apply (geocode_address_raises_only_foreign_errors breaks_after_miami
           (address ocala) 3 [] (Exception "unexpected failure")
           (snd (geocode_address breaks_after_miami (address ocala) 3 []))).
  vm_compute. reflexivity.
Defined.

Lemma geocode_address_trace svc a R t :
  exists evs,
    snd (geocode_address svc a R t) = t ++ evs /\
    attempts_trace a R (range R) evs.
Proof. apply for_attempts_trace. Qed.

(** ** The traces of the batch loop *)

(** Whatever the service answers, the batch loop adds to the trace events
    of the shape [batch_trace] describes. *)
Lemma for_branches_trace svc total todo :
  forall acc t, exists evs,
    snd (for_branches svc total todo acc t) = t ++ evs /\
    batch_trace total (is_ret (fst (for_branches svc total todo acc t)))
      todo evs.
Proof.
  induction todo as [|[i b] rest IH]; intros acc t.
  - exists []. simpl. rewrite app_nil_r. split; [reflexivity|constructor].
  - simpl. unfold bind. rewrite branch_body_eq.
    destruct (geocode_address_trace svc (address b) 3
                (t ++ [Print (GeocodingProgress i total (name b))]))
      as (evs & Hsnd & Hevs).
    destruct (geocode_address svc (address b) 3 _) as [[[lat lon]|e] t2];
      cbn [snd] in Hsnd; subst t2.
    + destruct (truthy lat && truthy lon).
      * match goal with
        | |- context [for_branches svc total rest ?acc' ?t'] =>
            destruct (IH acc' t') as (more & Hs & Hm)
        end.
        exists (Print (GeocodingProgress i total (name b))
                  :: evs ++ Print (Found lat lon) :: Sleep 1 :: more).
        split.
        -- rewrite Hs. repeat rewrite <- app_assoc. reflexivity.
        -- apply bt_branch; [exact Hevs|left; eauto|exact Hm].
      * match goal with
        | |- context [for_branches svc total rest ?acc' ?t'] =>
            destruct (IH acc' t') as (more & Hs & Hm)
        end.
        exists (Print (GeocodingProgress i total (name b))
                  :: evs ++ Print (FailedBranch (address b))
                  :: Sleep 1 :: more).
        split.
        -- rewrite Hs. repeat rewrite <- app_assoc. reflexivity.
        -- apply bt_branch; [exact Hevs|right; reflexivity|exact Hm].
    + exists (Print (GeocodingProgress i total (name b)) :: evs).
      cbn [fst snd is_ret]. split.
      * rewrite <- app_assoc. reflexivity.
      * apply bt_raised. exact Hevs.
Qed.

Lemma enumerate_length {A} (l : list A) :
  forall start, length (enumerate start l) = length l.
Proof.
  induction l as [|x l IH]; intros start; simpl; [|rewrite IH]; reflexivity.
Qed.

Lemma geocode_branches_trace svc branches t :
  exists evs,
    snd (geocode_branches svc branches t) =
      t ++ Print (Text "Geocoding Fortiline branch addresses...") :: evs /\
    batch_trace (length branches)
      (is_ret (fst (geocode_branches svc branches t)))
      (enumerate 1 branches) evs.
Proof.
  unfold geocode_branches, bind, print, emit.
  match goal with
  | |- context [for_branches svc ?n ?todo ?acc ?t'] =>
      destruct (for_branches_trace svc n todo acc t') as (evs & Hs & Hevs)
  end.
  exists evs. split; [|exact Hevs].
  rewrite Hs, <- app_assoc. reflexivity.
Qed.

Lemma sum_sleeps_nonneg l : Forall (fun d => 1 <= d) l -> 0 <= sum l.
Proof. induction 1; simpl; lia. Qed.

(** Per branch: between 1 and 3 lookups, and at most 4 + 1 slept; a
    branch that is completed sleeps at least the pause of 1. *)
Lemma batch_trace_counts total returned todo evs :
  batch_trace total returned todo evs ->
  (calls evs <= 3 * length todo)%nat /\
  0 <= sum (sleeps evs) <= 5 * Z.of_nat (length todo) /\
  ((if returned then length todo else O) <= calls evs)%nat /\
  Z.of_nat (if returned then length todo else O) <= sum (sleeps evs).
Proof.
  induction 1 as [|returned i b rest evs m more Hevs Hm Hmore IH
                  |i b rest evs Hevs].
  - simpl. repeat split; lia.
  - destruct IH as (IHc & IHs & IHn & IHd).
    destruct (attempts_trace_starts _ _ _ _ _ Hevs) as (tl & Htl).
    pose proof (attempts_trace_lookups _ _ _ _ Hevs) as [_ Hc].
    pose proof (attempts_trace_sleeps _ _ _ _ (range_nonneg 3) Hevs)
      as [Hpos Hmax].
    apply sum_sleeps_nonneg in Hpos.
    change (max_delay 3 (range 3)) with 4 in Hmax.
    change (length (range 3)) with 3%nat in Hc.
    assert (H1 : (1 <= calls evs)%nat) by (rewrite Htl; simpl; lia).
    cbn [calls sleeps length].
    rewrite calls_app, sleeps_app, sum_app. cbn [calls sleeps sum fold_right].
    fold (sum (sleeps more)).
    destruct returned; repeat split; lia.
  - pose proof (attempts_trace_lookups _ _ _ _ Hevs) as [_ Hc].
    pose proof (attempts_trace_sleeps _ _ _ _ (range_nonneg 3) Hevs)
      as [Hpos Hmax].
    apply sum_sleeps_nonneg in Hpos.
    change (max_delay 3 (range 3)) with 4 in Hmax.
    change (length (range 3)) with 3%nat in Hc.
    cbn [calls sleeps length]. repeat split; lia.
Qed.

Lemma batch_trace_paced total returned todo evs :
  batch_trace total returned todo evs -> paced true evs = true.
Proof.
  induction 1 as [|returned i b rest evs m more Hevs Hm Hmore IH
                  |i b rest evs Hevs]; cbn [paced].
  - reflexivity.
  - rewrite paced_app.
    rewrite (attempts_trace_paced _ _ _ _ (range_nonneg 3) Hevs).
    cbn [paced andb]. rewrite orb_true_r. exact IH.
  - exact (attempts_trace_paced _ _ _ _ (range_nonneg 3) Hevs).
Qed.

Lemma batch_trace_lookups total returned todo evs :
  batch_trace total returned todo evs ->
  (forall a, In a (lookups evs) -> exists b, In b (map snd todo) /\ address b = a) /\
  (returned = true ->
   forall b, In b (map snd todo) -> In (address b) (lookups evs)).
Proof.
  induction 1 as [|returned i b rest evs m more Hevs Hm Hmore [IHin IHall]
                  |i b rest evs Hevs].
  - split; [intros a []|intros _ b []].
  - pose proof (attempts_trace_lookups _ _ _ _ Hevs) as [Hl _].
    destruct (attempts_trace_starts _ _ _ _ _ Hevs) as (tl & Htl).
    cbn [lookups map snd]. rewrite lookups_app. cbn [lookups]. split.
    + intros a Ha. apply in_app_or in Ha as [Ha|Ha].
      * rewrite Hl in Ha. apply repeat_spec in Ha. subst a.
        exists b. split; [left; reflexivity|reflexivity].
      * destruct (IHin a Ha) as (b' & Hb' & Hab').
        exists b'. split; [right; exact Hb'|exact Hab'].
    + intros Hret b' [<-|Hb']; apply in_or_app.
      * left. rewrite Htl. left. reflexivity.
      * right. apply IHall; assumption.
  - pose proof (attempts_trace_lookups _ _ _ _ Hevs) as [Hl _].
    cbn [lookups map snd]. split; [|discriminate].
    intros a Ha. rewrite Hl in Ha. apply repeat_spec in Ha. subst a.
    exists b. split; [left; reflexivity|reflexivity].
Qed.

Lemma attempts_trace_early a R l evs :
  attempts_trace a R l evs -> forallb early evs = true.
Proof. induction 1; simpl; auto. Qed.

Lemma batch_trace_early total returned todo evs :
  batch_trace total returned todo evs -> forallb early evs = true.
Proof.
  induction 1 as [|returned i b rest evs m more Hevs Hm Hmore IH
                  |i b rest evs Hevs]; cbn [forallb early andb].
  - reflexivity.
  - rewrite forallb_app, (attempts_trace_early _ _ _ _ Hevs).
    cbn [forallb early andb]. rewrite IH.
    destruct Hm as [(lat & lon & ->)| ->]; reflexivity.
  - exact (attempts_trace_early _ _ _ _ Hevs).
Qed.

(** ** More on geocode_branches *)

(** X7: whatever the service answers and however the batch ends, it never
    makes a lookup without having slept at least 1 time unit since the
    lookup before. *)
Theorem geocode_branches_paces_lookups svc branches t :
  exists evs,
    snd (geocode_branches svc branches t) = t ++ evs /\
    paced true evs = true.
Proof.
  destruct (geocode_branches_trace svc branches t) as (evs & Hs & Hevs).
  eexists. split; [exact Hs|].
  cbn [paced]. exact (batch_trace_paced _ _ _ _ Hevs).
Qed.

(** X8: whatever the service answers and however the batch ends, it makes
    at most 3 lookups per branch and sleeps at most 5 time units per
    branch. *)
Theorem geocode_branches_budget svc branches t :
  (calls (snd (geocode_branches svc branches t))
   <= calls t + 3 * length branches)%nat /\
  sum (sleeps (snd (geocode_branches svc branches t)))
  <= sum (sleeps t) + 5 * Z.of_nat (length branches).
Proof.
  destruct (geocode_branches_trace svc branches t) as (evs & Hs & Hevs).
  apply batch_trace_counts in Hevs as (Hc & Hd & _).
  rewrite enumerate_length in Hc, Hd.
  rewrite Hs, calls_app, sleeps_app, sum_app. cbn [calls sleeps]. lia.
Qed.

(** X9: a batch that returns has looked up every branch at least once and
    has slept at least 1 time unit per branch. *)
Theorem geocode_branches_visits_every_branch svc branches t out t' :
  geocode_branches svc branches t = (Ret out, t') ->
  (calls t + length branches <= calls t')%nat /\
  sum (sleeps t) + Z.of_nat (length branches) <= sum (sleeps t') /\
  forall b, In b branches -> In (address b) (lookups t').
Proof.
  intros Hrun.
  destruct (geocode_branches_trace svc branches t) as (evs & Hs & Hevs).
  rewrite Hrun in Hs, Hevs. cbn [fst snd is_ret] in Hs, Hevs. subst t'.
  pose proof (batch_trace_counts _ _ _ _ Hevs) as (_ & _ & Hn & Hd).
  pose proof (batch_trace_lookups _ _ _ _ Hevs) as [_ Hall].
  rewrite enumerate_length in Hn, Hd. rewrite enumerate_snd in Hall.
  rewrite calls_app, sleeps_app, sum_app, lookups_app. cbn [calls sleeps lookups].
  repeat split; try lia.
  intros b Hb. apply in_or_app. right. apply Hall; [reflexivity|exact Hb].
Qed.

Lemma geocode_branches_visits_every_branch_witness :
  (calls [] + length two_branches
   <= calls (snd (geocode_branches only_miami two_branches [])))%nat /\
  sum (sleeps []) + Z.of_nat (length two_branches)
  <= sum (sleeps (snd (geocode_branches only_miami two_branches []))) /\
  forall b, In b two_branches ->
            In (address b)
               (lookups (snd (geocode_branches only_miami two_branches []))).
Proof.
  apply (geocode_branches_visits_every_branch only_miami two_branches []
           [miami_found]).
  vm_compute. reflexivity.
Defined.

(** X10: the batch looks up addresses of the branches it was given and
    nothing else. *)
Theorem geocode_branches_looks_up_branches_only svc branches t a :
  In a (lookups (snd (geocode_branches svc branches t))) ->
  In a (lookups t) \/ exists b, In b branches /\ address b = a.
Proof.
  destruct (geocode_branches_trace svc branches t) as (evs & Hs & Hevs).
  pose proof (batch_trace_lookups _ _ _ _ Hevs) as [Hin _].
  rewrite enumerate_snd in Hin.
  rewrite Hs, lookups_app. cbn [lookups]. intros Ha.
  apply in_app_or in Ha as [Ha|Ha]; [left; exact Ha|right; apply Hin, Ha].
Qed.

Lemma geocode_branches_looks_up_branches_only_witness :
  In "3518 SW 13th St, Ocala, FL 34474" (lookups []) \/
  exists b, In b two_branches /\ address b = "3518 SW 13th St, Ocala, FL 34474".
Proof.
  apply (geocode_branches_looks_up_branches_only only_miami two_branches []).
  vm_compute. right. left. reflexivity.
Defined.

(** *** A service whose answer depends on the address alone *)

Lemma geocode_address_fixed_answer f a t :
  (forall e, f a = Raise e -> is_geocoder_error e = true) ->
  fst (geocode_address (fun _ => f) a 3 t) =
  Ret (match f a with
       | Ret (Some loc) => (Some (loc_latitude loc), Some (loc_longitude loc))
       | _ => (None, None)
       end).
Proof.
  intros Hf. destruct (f a) as [[loc|]|e] eqn:E.
  - rewrite (geocode_address_first_try (fun _ => f) a 3 loc t);
      [reflexivity|lia|exact E].
  - pose proof (for_attempts_outcome (fun _ => f) a 3 (range 3) t) as H.
    fold (geocode_address (fun _ => f) a 3 t) in H.
    destruct (fst (geocode_address (fun _ => f) a 3 t)) as [[lat lon]|e].
    + destruct H as [[-> ->]|(n & loc & _ & H & _)]; [reflexivity|congruence].
    + destruct H as (_ & n & _ & H). congruence.
  - pose proof (for_attempts_outcome (fun _ => f) a 3 (range 3) t) as H.
    fold (geocode_address (fun _ => f) a 3 t) in H.
    destruct (fst (geocode_address (fun _ => f) a 3 t)) as [[lat lon]|e'].
    + destruct H as [[-> ->]|(n & loc & _ & H & _)]; [reflexivity|congruence].
    + destruct H as (He' & n & _ & H).
      assert (e' = e) by congruence. subst e'.
      rewrite (Hf e eq_refl) in He'. discriminate.
Qed.

Lemma for_branches_fixed_answer f total todo :
  (forall a e, f a = Raise e -> is_geocoder_error e = true) ->
  forall acc t,
    fst (for_branches (fun _ => f) total todo acc t) =
    Ret (acc ++ expected_locations f (map snd todo)).
Proof.
  intros Hf. induction todo as [|[i b] rest IH]; intros acc t.
  - simpl. rewrite app_nil_r. reflexivity.
  - simpl. unfold bind. rewrite branch_body_eq.
    pose proof (geocode_address_fixed_answer f (address b)
                  (t ++ [Print (GeocodingProgress i total (name b))])
                  (Hf (address b))) as Hgeo.
    destruct (geocode_address (fun _ => f) (address b) 3 _) as [r t2].
    cbn [fst] in Hgeo. subst r. unfold expected_entry.
    destruct (f (address b)) as [[loc|]|e].
    + destruct (truthy (Some (loc_latitude loc))
                && truthy (Some (loc_longitude loc))).
      * rewrite IH, <- app_assoc. reflexivity.
      * rewrite IH. reflexivity.
    + simpl. rewrite IH. reflexivity.
    + simpl. rewrite IH. reflexivity.
Qed.

(** X11: for a service whose answer depends on the address alone and
    that raises no error but geocoder errors, the batch returns, in the
    order of the input, the entries of exactly the branches whose address
    resolves to a location with non-zero latitude and longitude, each
    with its name, its address and those coordinates. *)
Theorem geocode_branches_fixed_answers f branches t :
  (forall a e, f a = Raise e -> is_geocoder_error e = true) ->
  fst (geocode_branches (fun _ => f) branches t) =
  Ret (expected_locations f branches).
Proof.
  intros Hf. unfold geocode_branches, bind, print, emit.
  rewrite (for_branches_fixed_answer f _ _ Hf), enumerate_snd. reflexivity.
Qed.

Lemma geocode_branches_fixed_answers_witness :
  fst (geocode_branches
         (fun _ => one_dead_address O) three_branches []) =
  Ret (expected_locations (one_dead_address O) three_branches).
Proof.
  apply (geocode_branches_fixed_answers (one_dead_address O) three_branches []).
  intros a e. unfold one_dead_address.
  destruct (String.eqb a "1 Nowhere Rd, Atlantis, FL 00000").
  - intros [= <-]. reflexivity.
  - discriminate.
Defined.

(** *** What a batch returns, and how it fails *)

Lemma for_branches_raises svc total todo :
  forall acc t e t',
    for_branches svc total todo acc t = (Raise e, t') ->
    is_geocoder_error e = false /\
    exists (n : nat) (b : Branch),
      In b (map snd todo) /\ svc n (address b) = Raise e.
Proof.
  induction todo as [|[i b] rest IH]; intros acc t e t' Hrun.
  - discriminate.
  - simpl in Hrun. unfold bind in Hrun. rewrite branch_body_eq in Hrun.
    pose proof (for_attempts_outcome svc (address b) 3 (range 3)
                  (t ++ [Print (GeocodingProgress i total (name b))])) as Ho.
    fold (geocode_address svc (address b) 3
            (t ++ [Print (GeocodingProgress i total (name b))])) in Ho.
    destruct (geocode_address svc (address b) 3 _) as [[[lat lon]|e0] t2].
    + clear Ho. destruct (truthy lat && truthy lon);
        apply IH in Hrun as (He & n & b' & Hb' & Hn);
        (split; [exact He|]); exists n, b'; (split; [right; exact Hb'|exact Hn]).
    + injection Hrun as <- _. cbn [fst] in Ho.
      destruct Ho as (He & n & _ & Hn). split; [exact He|].
      exists n, b. split; [left; reflexivity|exact Hn].
Qed.

(** X12: every entry of the list the batch returns has a latitude and a
    longitude that are floats different from zero. *)
Theorem geocode_branches_coordinates_nonzero svc branches t out t' :
  geocode_branches svc branches t = (Ret out, t') ->
  Forall (fun bl => truthy (latitude bl) = true /\
                    truthy (longitude bl) = true) out.
Proof.
  unfold geocode_branches, bind, print, emit. intros Hrun.
  apply (for_branches_invariant svc (length branches)
           (fun _ acc =>
              Forall (fun bl => truthy (latitude bl) = true /\
                                truthy (longitude bl) = true) acc))
    with (3 := Hrun); [|constructor].
  intros i b rest acc t0 acc' t0' Hacc Hbody.
  apply branch_body_cases in Hbody
    as [->|(lat & lon & t2 & _ & Hlat & Hlon & ->)]; [exact Hacc|].
  apply Forall_app. split; [exact Hacc|].
  constructor; [|constructor]. simpl. split; assumption.
Qed.

Lemma geocode_branches_coordinates_nonzero_witness :
  Forall (fun bl => truthy (latitude bl) = true /\
                    truthy (longitude bl) = true) [miami_found].
Proof.
  apply (geocode_branches_coordinates_nonzero only_miami two_branches []
           [miami_found] (snd (geocode_branches only_miami two_branches []))).
  vm_compute. reflexivity.
Defined.

(** X13: the batch is left by an error only if the lookup of the address
    of one of its branches raised that error and its class is not one the
    [except] clause names. *)
Theorem geocode_branches_raises_only_foreign_errors svc branches t e t' :
  geocode_branches svc branches t = (Raise e, t') ->
  is_geocoder_error e = false /\
  exists (n : nat) (b : Branch),
    In b branches /\ svc n (address b) = Raise e.
Proof.
  unfold geocode_branches, bind, print, emit. intros Hrun.
  apply for_branches_raises in Hrun as (He & n & b & Hb & Hn).
  rewrite enumerate_snd in Hb. eauto.
Qed.

Lemma geocode_branches_raises_only_foreign_errors_witness :
  is_geocoder_error (Exception "unexpected failure") = false /\
  exists (n : nat) (b : Branch),
    In b two_branches /\
    breaks_after_miami n (address b) = Raise (Exception "unexpected failure").
Proof.
  apply (geocode_branches_raises_only_foreign_errors breaks_after_miami
           two_branches [] (Exception "unexpected failure")
           (snd (geocode_branches breaks_after_miami two_branches []))).
  vm_compute. reflexivity.
Defined.

(** ** More on main *)

Lemma main_fetch_failed env e :
  primary env = Raise e ->
  main env [] =
  (Raise primary_failed,
   main_header ++ failed_fetch e ++ troubleshooting primary_failed).
Proof.
  intros Hp. rewrite main_eq, get_florida_counties_eq, Hp. reflexivity.
Qed.

(** [main] once the boundaries have arrived, by the result of the batch. *)
Lemma main_after_fetch env counties r t2 :
  primary env = Ret counties ->
  geocode_branches (service env) get_fortiline_branches
    (main_header ++ fetched counties) = (r, t2) ->
  main env [] =
  match r with
  | Raise e => (Raise e, t2 ++ troubleshooting e)
  | Ret [] =>
      (Ret tt,
       t2 ++ [Print (Text "ERROR: No branches were successfully geocoded!")])
  | Ret (bl :: bls) =>
      let drawn :=
        [ Print (Text "Creating interactive map...");
          CreateMap counties (bl :: bls) ] in
      match render env with
      | Raise e => (Raise e, t2 ++ drawn ++ troubleshooting e)
      | Ret _ =>
          let saved := drawn ++ [SaveMap "fortiline_florida_map.html"] in
          match save env with
          | Raise e => (Raise e, t2 ++ saved ++ troubleshooting e)
          | Ret _ =>
              (Ret tt,
               t2 ++ saved ++
                 [ Print (Text (nl ++ banner)%string);
                   Print (MapCreated "fortiline_florida_map.html");
                   Print (CountCounties (length counties));
                   Print (CountBranches (length (bl :: bls)));
                   Print (OpenHint "fortiline_florida_map.html");
                   Print (Text banner) ])
          end
      end
  end.
Proof.
  intros Hp Hg. rewrite main_eq, get_florida_counties_eq, Hp.
  change ([] ++ main_header) with main_header.
  change (main_header ++ _) with (main_header ++ fetched counties).
  rewrite Hg. reflexivity.
Qed.

(** Up to the end of the batch, the trace holds early events only. *)
Lemma batch_of_main_early env counties :
  forallb early
    (snd (geocode_branches (service env) get_fortiline_branches
            (main_header ++ fetched counties))) = true.
Proof.
  destruct (geocode_branches_trace (service env) get_fortiline_branches
              (main_header ++ fetched counties)) as (evs & Hs & Hevs).
  rewrite Hs, forallb_app. cbn [forallb early andb].
  rewrite (batch_trace_early _ _ _ _ Hevs). reflexivity.
Qed.

Lemma early_in t ev : forallb early t = true -> In ev t -> early ev = true.
Proof.
  intros Ht Hin. rewrite forallb_forall in Ht. apply Ht, Hin.
Qed.

Lemma for_branches_entries_nonzero svc total todo acc t out t' :
  Forall (fun bl => truthy (latitude bl) = true /\
                    truthy (longitude bl) = true) acc ->
  for_branches svc total todo acc t = (Ret out, t') ->
  Forall (fun bl => truthy (latitude bl) = true /\
                    truthy (longitude bl) = true) out.
Proof.
  intros Hacc Hrun.
  apply (for_branches_invariant svc total
           (fun _ acc =>
              Forall (fun bl => truthy (latitude bl) = true /\
                                truthy (longitude bl) = true) acc))
    with (3 := Hrun); [|exact Hacc].
  clear. intros i b rest acc t0 acc' t0' Hacc Hbody.
  apply branch_body_cases in Hbody
    as [->|(lat & lon & t2 & _ & Hlat & Hlon & ->)]; [exact Hacc|].
  apply Forall_app. split; [exact Hacc|].
  constructor; [|constructor]. simpl. split; assumption.
Qed.

Lemma paced_no_lookup t :
  calls t = O -> forall rested, paced rested t = true.
Proof.
  induction t as [|ev t IH]; intros Hc rested; simpl; [reflexivity|].
  destruct ev; simpl in Hc; try discriminate; apply IH; exact Hc.
Qed.

(** The case analysis of a run of [main]: the fetch fails, or it succeeds
    and the batch ends with a result [r] and a trace [t2] of early
    events. *)
Ltac main_cases env :=
  let counties := fresh "counties" in
  let e0 := fresh "e0" in
  let Hp := fresh "Hp" in
  destruct (primary env) as [counties|e0] eqn:Hp;
  [ let r := fresh "r" in
    let t2 := fresh "t2" in
    let Hg := fresh "Hg" in
    let Hearly := fresh "Hearly" in
    destruct (geocode_branches (service env) get_fortiline_branches
                (main_header ++ fetched counties)) as [r t2] eqn:Hg;
    pose proof (batch_of_main_early env counties) as Hearly;
    rewrite Hg in Hearly; cbn [snd] in Hearly;
    rewrite (main_after_fetch env counties r t2 Hp Hg)
  | rewrite (main_fetch_failed env e0 Hp) ].

(** Search a list given by its elements for an event. *)
Ltac not_listed H :=
  simpl in H;
  repeat (destruct H as [H|H]; [try discriminate H|]);
  try contradiction.

(** X14: the renderer is never handed an empty list, nor an entry with a
    missing or zero coordinate, and the county table it is handed is the
    one the boundary fetch produced. *)
Theorem main_renders_located_branches_only env counties branch_locations :
  In (CreateMap counties branch_locations) (snd (main env [])) ->
  primary env = Ret counties /\
  branch_locations <> [] /\
  Forall (fun bl => truthy (latitude bl) = true /\
                    truthy (longitude bl) = true) branch_locations.
Proof.
  main_cases env; cbn [snd]; intros Hin.
  - assert (Ht2 : ~ In (CreateMap counties branch_locations) t2).
    { intros H. apply (early_in _ _ Hearly) in H. discriminate. }
    destruct r as [[|bl bls]|e].
    + apply in_app_or in Hin as [Hin|Hin]; [contradiction|]. not_listed Hin.
    + assert (Hok : Forall (fun bl => truthy (latitude bl) = true /\
                                      truthy (longitude bl) = true)
                      (bl :: bls)).
      { unfold geocode_branches, bind, print, emit in Hg.
        eapply for_branches_entries_nonzero; [constructor|exact Hg]. }
      destruct (render env) as [[]|e]; [destruct (save env) as [[]|e]|];
        cbn [snd] in Hin;
        (apply in_app_or in Hin as [Hin|Hin]; [contradiction|]);
        not_listed Hin;
        injection Hin as <- <-; (split; [reflexivity|]);
        (split; [discriminate|exact Hok]).
    + apply in_app_or in Hin as [Hin|Hin]; [contradiction|]. not_listed Hin.
  - exfalso. not_listed Hin.
Qed.

Lemma main_renders_located_branches_only_witness :
  primary working_env = Ret ["Miami-Dade"; "Broward"] /\
  expected_locations (always_finds O) get_fortiline_branches <> [] /\
  Forall (fun bl => truthy (latitude bl) = true /\
                    truthy (longitude bl) = true)
    (expected_locations (always_finds O) get_fortiline_branches).
Proof.
  apply (main_renders_located_branches_only working_env).
  vm_compute. repeat (first [left; reflexivity | right]).
Defined.

(** X15: the line announcing the map is printed only in a run in which
    the map was rendered and saved without error, and which returns. *)
Theorem main_announces_saved_maps_only env file :
  In (Print (MapCreated file)) (snd (main env [])) ->
  fst (main env []) = Ret tt /\
  render env = Ret tt /\ save env = Ret tt /\
  rendered (snd (main env [])) = true /\
  In (SaveMap file) (snd (main env [])).
Proof.
  main_cases env; cbn [fst snd]; intros Hin.
  - assert (Ht2 : ~ In (Print (MapCreated file)) t2).
    { intros H. apply (early_in _ _ Hearly) in H. discriminate. }
    destruct r as [[|bl bls]|e].
    + apply in_app_or in Hin as [Hin|Hin]; [contradiction|]. not_listed Hin.
    + destruct (render env) as [[]|e]; [destruct (save env) as [[]|e]|];
        cbn [fst snd] in *;
        (apply in_app_or in Hin as [Hin|Hin]; [contradiction|]);
        not_listed Hin.
      injection Hin as <-. repeat split.
      * rewrite rendered_app. apply orb_true_r.
      * apply in_or_app. right. simpl. auto.
    + apply in_app_or in Hin as [Hin|Hin]; [contradiction|]. not_listed Hin.
  - exfalso. not_listed Hin.
Qed.

Lemma main_announces_saved_maps_only_witness :
  fst (main working_env []) = Ret tt /\
  render working_env = Ret tt /\ save working_env = Ret tt /\
  rendered (snd (main working_env [])) = true /\
  In (SaveMap "fortiline_florida_map.html") (snd (main working_env [])).
Proof.
  apply (main_announces_saved_maps_only working_env
           "fortiline_florida_map.html").
  vm_compute. repeat (first [left; reflexivity | right]).
Defined.

(** X16: an error that leaves [main] has been reported by the top-level
    handler just before, and it is the fixed error of a failed boundary
    fetch, or the error the renderer or the saving raised, or an error of
    a class the [except] clause does not name that the lookup of a branch
    address raised. *)
Theorem main_reraises_what_a_stage_raised env e :
  fst (main env []) = Raise e ->
  (exists t0, snd (main env []) = t0 ++ troubleshooting e) /\
  ((e = primary_failed /\ exists e0, primary env = Raise e0) \/
   render env = Raise e \/
   save env = Raise e \/
   (is_geocoder_error e = false /\
    exists (n : nat) (b : Branch),
      In b get_fortiline_branches /\
      service env n (address b) = Raise e)).
Proof.
  main_cases env; cbn [fst snd].
  - destruct r as [[|bl bls]|e1].
    + discriminate.
    + destruct (render env) as [[]|e1]; [destruct (save env) as [[]|e1]|];
        cbn [fst snd]; intros [= <-].
      * split; [|auto].
        exists (t2 ++ [Print (Text "Creating interactive map...");
                       CreateMap counties (bl :: bls);
                       SaveMap "fortiline_florida_map.html"]).
        rewrite <- (app_assoc t2). reflexivity.
      * split; [|auto].
        exists (t2 ++ [Print (Text "Creating interactive map...");
                       CreateMap counties (bl :: bls)]).
        rewrite <- (app_assoc t2). reflexivity.
    + intros [= <-]. split; [exists t2; reflexivity|].
      do 3 right.
      unfold geocode_branches, bind, print, emit in Hg.
      apply for_branches_raises in Hg as (He & n & b & Hb & Hn).
      rewrite enumerate_snd in Hb. eauto.
  - intros [= <-]. split.
    + exists (main_header ++ failed_fetch e0).
      rewrite <- app_assoc. reflexivity.
    + left. eauto.
Qed.

Lemma main_reraises_what_a_stage_raised_witness :
  let e := Exception "No space left on device" in
  (exists t0, snd (main disk_full_env []) = t0 ++ troubleshooting e) /\
  ((e = primary_failed /\ exists e0, primary disk_full_env = Raise e0) \/
   render disk_full_env = Raise e \/
   save disk_full_env = Raise e \/
   (is_geocoder_error e = false /\
    exists (n : nat) (b : Branch),
      In b get_fortiline_branches /\
      service disk_full_env n (address b) = Raise e)).
Proof.
  apply (main_reraises_what_a_stage_raised disk_full_env
           (Exception "No space left on device")).
  vm_compute. reflexivity.
Defined.

(** X17: the map is saved only after it has been rendered without error,
    and only under the one fixed file name. *)
Theorem main_saves_rendered_maps_only env file :
  In (SaveMap file) (snd (main env [])) ->
  file = "fortiline_florida_map.html" /\
  render env = Ret tt /\
  rendered (snd (main env [])) = true.
Proof.
  main_cases env; cbn [fst snd]; intros Hin.
  - assert (Ht2 : ~ In (SaveMap file) t2).
    { intros H. apply (early_in _ _ Hearly) in H. discriminate. }
    destruct r as [[|bl bls]|e].
    + apply in_app_or in Hin as [Hin|Hin]; [contradiction|]. not_listed Hin.
    + destruct (render env) as [[]|e]; [destruct (save env) as [[]|e]|];
        cbn [fst snd] in *;
        (apply in_app_or in Hin as [Hin|Hin]; [contradiction|]);
        not_listed Hin;
        injection Hin as <-; repeat split;
        rewrite rendered_app; apply orb_true_r.
    + apply in_app_or in Hin as [Hin|Hin]; [contradiction|]. not_listed Hin.
  - exfalso. not_listed Hin.
Qed.

Lemma main_saves_rendered_maps_only_witness :
  "fortiline_florida_map.html" = "fortiline_florida_map.html" /\
  render disk_full_env = Ret tt /\
  rendered (snd (main disk_full_env [])) = true.
Proof.
  apply (main_saves_rendered_maps_only disk_full_env
           "fortiline_florida_map.html").
  vm_compute. repeat (first [left; reflexivity | right]).
Defined.

(** X18: whatever the outside world does, a run of [main] makes at most
    51 lookups (3 for each of the 17 branches), never one without at
    least 1 time unit slept since the lookup before, and sleeps at most
    85 time units in all. *)
Theorem main_respects_rate_limit env :
  (calls (snd (main env [])) <= 51)%nat /\
  paced true (snd (main env [])) = true /\
  sum (sleeps (snd (main env []))) <= 85.
Proof.
  main_cases env; cbn [snd]; [|repeat split; simpl; lia || reflexivity].
  destruct (geocode_branches_trace (service env) get_fortiline_branches
              (main_header ++ fetched counties)) as (evs & Hs & Hevs).
  rewrite Hg in Hs. cbn [snd] in Hs.
  pose proof (batch_trace_counts _ _ _ _ Hevs) as (Hc & Hd & _).
  pose proof (batch_trace_paced _ _ _ _ Hevs) as Hpaced.
  change (length (enumerate 1 get_fortiline_branches)) with 17%nat in Hc, Hd.
  assert (Hp2 : paced true t2 = true) by (rewrite Hs; exact Hpaced).
  assert (Hc2 : (calls t2 <= 51)%nat).
  { rewrite Hs, calls_app. cbn [calls main_header fetched app]. lia. }
  assert (Hd2 : sum (sleeps t2) <= 85).
  { rewrite Hs, sleeps_app, sum_app.
    change (sleeps (main_header ++ fetched counties)) with (@nil Z).
    cbn [sleeps]. change (sum []) with 0. lia. }
  assert (Htail : forall tail,
             calls tail = O -> sleeps tail = [] ->
             (calls (t2 ++ tail) <= 51)%nat /\
             paced true (t2 ++ tail) = true /\
             sum (sleeps (t2 ++ tail)) <= 85).
  { intros tail Hct Hst.
    rewrite calls_app, paced_app, sleeps_app, sum_app, Hct, Hst, Hp2.
    rewrite (paced_no_lookup tail Hct). simpl. repeat split; lia. }
  destruct r as [[|bl bls]|e].
  - apply Htail; reflexivity.
  - destruct (render env) as [[]|e]; [destruct (save env) as [[]|e]|];
      cbn [snd]; apply Htail; reflexivity.
  - apply Htail; reflexivity.
Qed.
